(** * hangupsbot plugin loader: [plugins/__init__.py]

    A shallow embedding of the plugin subsystem of hangupsbot: the module
    lister ([retrieve_all_plugins]), the plugin selector
    ([get_configured_plugins]), the registration tracker (class [tracker])
    and the loader ([load], [load_user_plugins]), followed by the properties
    the design document states about them. *)

From Stdlib Require Import Ascii Bool Arith Lia.
From stdpp Require Import base decidable option list gmap strings.

#[local] Set Warnings "-register-all,-clear-no-such-hyp".

(** ** Python strings *)

Module PyStr.

(** [s.startswith(p)] *)
Definition startswith (s p : string) : bool := String.prefix p s.

(** [s.endswith(suffix)] *)
Definition endswith (s suffix : string) : bool :=
  let n := String.length s in
  let k := String.length suffix in
  Nat.leb k n && String.eqb (String.substring (n - k) k s) suffix.

(** [s.rfind(c)] for a one-character [c]; [None] stands for -1. *)
Fixpoint rfind (c : ascii) (s : string) : option nat :=
  match s with
  | EmptyString => None
  | String a rest =>
      match rfind c rest with
      | Some i => Some (S i)
      | None => if Ascii.eqb a c then Some 0 else None
      end
  end.

Fixpoint all_dots (s : string) : bool :=
  match s with
  | EmptyString => true
  | String a rest => Ascii.eqb a "."%char && all_dots rest
  end.

(** [os.path.splitext(p)[0]] for a directory entry name [p] (such a name
    holds no path separator, so the separator index of [genericpath._splitext]
    is -1): the name is cut at its last dot, unless only dots precede it. *)
Definition splitext_root (p : string) : string :=
  match rfind "."%char p with
  | Some dotIndex =>
      if all_dots (String.substring 0 dotIndex p) then p
      else String.substring 0 dotIndex p
  | None => p
  end.

(** [s.split(".")[-1]] *)
Definition last_component (s : string) : string :=
  match rfind "."%char s with
  | Some i => String.substring (S i) (String.length s - S i) s
  | None => s
  end.

End PyStr.

(** ** Module lister *)

(** What [os.listdir], [os.path.isfile] and [os.path.join] see of the plugin
    directory: an entry is a regular file or it is not; an entry that is not
    a file is listed with the entries below it (none for anything that is not
    a directory).  The order of the entries is the order [os.listdir] returns
    them in. *)
Inductive node : Type :=
| File (name : string)
| Dir (name : string) (entries : list node).

Definition node_name (n : node) : string :=
  match n with File name => name | Dir name _ => name end.

(** [os.path.isfile(os.path.join(full_path, "__init__.py"))] *)
Definition has_init (entries : list node) : bool :=
  existsb (fun n => match n with
                    | File name => String.eqb name "__init__.py"
                    | Dir _ _ => false
                    end) entries.

(** [must_start_with and not node_name.startswith(must_start_with)]; the
    default [False] of the parameter is [None]. *)
Definition fails_prefix (must_start_with : option string) (name : string) : bool :=
  match must_start_with with
  | None => false
  | Some p => negb (String.eqb p "") && negb (PyStr.startswith name p)
  end.

(** The body of the [for node_name in nodes] loop: the [module_names] that
    one entry adds to [plugin_list] (nothing where the loop says
    [continue]). *)
Fixpoint scan_node (must_start_with : option string) (n : node) : list string :=
  let module_name := PyStr.splitext_root (node_name n) in
  if PyStr.startswith (node_name n) "_" || PyStr.startswith (node_name n) "." then []
  else if fails_prefix must_start_with (node_name n) then []
  else
    match n with
    | File name =>
        if PyStr.endswith name ".py" then [module_name] else []
    | Dir name entries =>
        if has_init entries then
          module_name ::
            map (fun sm => module_name +:+ "." +:+ sm)
                (flat_map (scan_node (Some name)) entries)
        else []
    end.

(** [retrieve_all_plugins(plugin_path, must_start_with)], on the listing of
    [plugin_path]. *)
Definition retrieve_all_plugins (plugin_path : list node)
    (must_start_with : option string) : list string :=
  flat_map (scan_node must_start_with) plugin_path.

(** ** Plugin selector *)

(** The four lists [get_configured_plugins] builds. *)
Record selection : Type := Selection {
  plugins_included : list string;
  plugins_excluded : list string;
  plugin_name_ambiguous : list string;
  plugin_name_not_found : list string
}.

(** [l.remove(x)]: the first occurrence goes.  (Python raises [ValueError]
    when there is none; the selector only removes a name it has just found in
    the list.) *)
Fixpoint list_remove (x : string) (l : list string) : list string :=
  match l with
  | [] => []
  | y :: rest => if String.eqb y x then rest else y :: list_remove x rest
  end.

(** The inner loop: the names of the pool whose full name ends with
    ["." + configured]. *)
Definition matches_of (configured : string) (pool : list string) : list string :=
  List.filter
    (fun found => PyStr.endswith ("plugins." +:+ found) ("." +:+ configured))
    pool.

(** One round of [for configured in config_plugins]. *)
Definition select_step (st : selection) (configured : string) : selection :=
  match matches_of configured (plugins_excluded st) with
  | [] =>
      Selection (plugins_included st) (plugins_excluded st)
                (plugin_name_ambiguous st)
                (plugin_name_not_found st ++ [configured])
  | [m] =>
      Selection (plugins_included st ++ [m])
                (list_remove m (plugins_excluded st))
                (plugin_name_ambiguous st)
                (plugin_name_not_found st)
  | _ :: _ :: _ =>
      Selection (plugins_included st) (plugins_excluded st)
                (plugin_name_ambiguous st ++ [configured])
                (plugin_name_not_found st)
  end.

(** The [else] branch of [get_configured_plugins]. *)
Definition select_plugins (all_plugins config_plugins : list string) : selection :=
  fold_left select_step config_plugins (Selection [] all_plugins [] []).

(** [get_configured_plugins(bot)], given what [retrieve_all_plugins()] found
    and the value of the [plugins] option ([None] when it is unset). *)
Definition get_configured_plugins (all_plugins : list string)
    (config_plugins : option (list string)) : list string :=
  match config_plugins with
  | None => all_plugins
  | Some fragments => plugins_included (select_plugins all_plugins fragments)
  end.

(** ** Exceptions and results *)

(** The classes of exception the loader tells apart.  [except TypeError] takes
    the first, [except Exception] everything but the last, which stands for
    what derives from [BaseException] only ([SystemExit],
    [KeyboardInterrupt]). *)
Inductive exn : Type :=
| TypeError
| AttributeError
| FormatError
| OtherException (what : string)
| ExitException (what : string).

Definition is_Exception (e : exn) : bool :=
  match e with ExitException _ => false | _ => true end.

Definition is_TypeError (e : exn) : bool :=
  match e with TypeError => true | _ => false end.

(** How a call ends. *)
Inductive outcome (A : Type) : Type :=
| Returned (a : A)
| Raised (e : exn).
Arguments Returned {A} a.
Arguments Raised {A} e.

(** ** Registration tracker *)

(** A function object, by its identity. *)
Abbreviation callable := string.

(** A tag-set is a [frozenset] of tags; a command carries a [set] of them. *)
Abbreviation tagset := (gset string).
Abbreviation tagsets := (gset (gset string)).

(** An element of a [tags] list: one tag, or a list of tags that must be held
    together. *)
Inductive tag_item : Type :=
| Tag (t : string)
| TagCombo (ts : list string).

(** The [tags] argument of the registration calls. *)
Inductive tags_arg : Type :=
| TagsNone
| TagsStr (s : string)
| TagsList (items : list tag_item).

(** A value of the host's configuration, as the tracker reads it. *)
Inductive config_value : Type :=
| CfgNone
| CfgBool (b : bool)
| CfgStr (s : string).

(** The host instance: the two options [bot.get_config_option] is asked
    for. *)
Record Bot : Type := MkBot {
  cfg_plugins_tags_auto_register : config_value;
  cfg_plugins : option (list string)
}.

(** A Python [dict] with string keys: the keys in insertion order, as
    [items()] yields them. *)
Abbreviation dict V := (list (string * V)).

Fixpoint dict_get {V} (k : string) (d : dict V) : option V :=
  match d with
  | [] => None
  | (k', v) :: rest => if String.eqb k' k then Some v else dict_get k rest
  end.

(** [d[k] = v]: an existing key keeps its place, a new one goes last. *)
Fixpoint dict_set {V} (k : string) (v : V) (d : dict V) : dict V :=
  match d with
  | [] => [(k, v)]
  | (k', v') :: rest =>
      if String.eqb k' k then (k', v) :: rest else (k', v') :: dict_set k v rest
  end.

Definition handler_entry : Type := callable * string * Z.
Definition shared_entry : Type := string * callable * bool.

(** [tracker._current].  [list(set(...))] leaves the order of the command
    lists to the interpreter; here it is the order of [elements]. *)
Record scope : Type := Scope {
  commands_admin : list string;
  commands_user : list string;
  commands_all : option (list string);
  commands_tagged : dict tagsets;
  handlers : list handler_entry;
  shared : list shared_entry;
  metadata : option (string * string)
}.

(** An object of class [tracker]: [self.bot], [self.list], [self._current]. *)
Record tracker : Type := Tracker {
  tr_bot : option Bot;
  tr_list : list scope;
  tr_current : scope
}.

Definition empty_scope (md : option (string * string)) : scope :=
  Scope [] [] None [] [] [] md.

Definition set_current (self : tracker) (sc : scope) : tracker :=
  Tracker (tr_bot self) (tr_list self) sc.

Definition set_tagged (sc : scope) (tg : dict tagsets) : scope :=
  Scope (commands_admin sc) (commands_user sc) (commands_all sc) tg
        (handlers sc) (shared sc) (metadata sc).

(** [list(set(l))]: the elements of [l], each once.  The interpreter is free
    in the order of the result; [elements] gives one such order, and the
    statements below speak of the members of these lists, not of their
    order. *)
Definition list_set (l : list string) : list string :=
  elements (list_to_set l : gset string).

Definition py_list_truthy {A} (l : list A) : bool :=
  match l with [] => false | _ => true end.

Definition cfg_truthy (c : config_value) : bool :=
  match c with
  | CfgNone => false
  | CfgBool b => b
  | CfgStr s => negb (String.eqb s "")
  end.

(** The tag-sets a command has: [tagged[command]], nothing for a name that is
    not a key. *)
Definition stored (tg : dict tagsets) (command : string) : tagsets :=
  default ∅ (dict_get command tg).

(** [covers tg tg']: [tg'] has every key and every stored tag-set of [tg]. *)
Definition covers (tg tg' : dict tagsets) : Prop :=
  ∀ n, (is_Some (dict_get n tg) → is_Some (dict_get n tg'))
       ∧ stored tg n ⊆ stored tg' n.

(** [if command not in tagged: tagged[command] = set()] *)
Definition ensure_key (command : string) (tg : dict tagsets) : dict tagsets :=
  match dict_get command tg with
  | None => dict_set command ∅ tg
  | Some _ => tg
  end.

(** [frozenset(item if isinstance(item, list) else [item])] *)
Definition tagset_of_item (item : tag_item) : tagset :=
  match item with
  | Tag t => {[ t ]}
  | TagCombo ts => list_to_set ts
  end.

(** [set([ frozenset(...) for item in base ])] *)
Definition tagsets_of (base : list tag_item) : tagsets :=
  list_to_set (map tagset_of_item base).

(** The list the local variable [tags] is bound to when the loop of
    [register_tags] starts, [[]] standing for every falsy value ([None], the
    empty string, the empty list). *)
Definition tags_list (tags : tags_arg) : list tag_item :=
  match tags with
  | TagsNone => []
  | TagsStr s => if String.eqb s "" then [] else [Tag s]
  | TagsList items => items
  end.

(** What the caller's argument holds after the call when the loop left the
    list [final] behind: only a non-empty list passed by the caller is the
    object the loop works on. *)
Definition tags_after (tags : tags_arg) (final : list tag_item) : tags_arg :=
  match tags with
  | TagsList (_ :: _) => TagsList final
  | _ => tags
  end.

(** The first lines of [register_tags]: the [plugins.tags.auto-register]
    option, [True] when it is unset. *)
Definition config_plugins_tags_autoregister (b : Bot) : config_value :=
  match cfg_plugins_tags_auto_register b with
  | CfgNone => CfgBool true
  | c => c
  end.

Section Tracker.

(** [template.format(command)] of the Python library, for a template taken
    from the configuration; [None] when it raises. *)
Variable py_format : string -> string -> option string.

(** [_tag.format(command)] *)
Definition synthesize (auto : config_value) (command : string) : option string :=
  match auto with
  | CfgStr template => py_format template command
  | _ => Some ("execute-" +:+ command)
  end.

(** The last three lines of the loop body: the tag-sets of [base] replace
    the stored ones when they are a strict superset of them. *)
Definition store_tagsets (command : string) (base : list tag_item)
    (tg : dict tagsets) : dict tagsets :=
  let new := tagsets_of base in
  if decide (stored tg command ⊂ new)
  then dict_set command (stored tg command ∪ new) tg
  else tg.

(** One round of [for command in command_names], on the dictionary
    [tagged] and the list bound to [tags]. *)
Definition register_tags_step (auto : config_value)
    (st : dict tagsets * list tag_item) (command : string)
    : (dict tagsets * list tag_item) * outcome unit :=
  let '(tg, tags) := st in
  let tg1 := ensure_key command tg in
  if cfg_truthy auto then
    match synthesize auto command with
    | None => ((tg1, tags), Raised FormatError)
    | Some t =>
        (* [base = tags], or a new list when [tags] is falsy; then
           [base += [t]] extends that list in place *)
        let base := tags ++ [Tag t] in
        let tags' := if py_list_truthy tags then base else tags in
        ((store_tagsets command base tg1, tags'), Returned tt)
    end
  else ((store_tagsets command tags tg1, tags), Returned tt).

Fixpoint register_tags_loop (auto : config_value) (command_names : list string)
    (st : dict tagsets * list tag_item)
    : (dict tagsets * list tag_item) * outcome unit :=
  match command_names with
  | [] => (st, Returned tt)
  | command :: rest =>
      match register_tags_step auto st command with
      | (st', Returned _) => register_tags_loop auto rest st'
      | (st', Raised e) => (st', Raised e)
      end
  end.

(** [tracker.register_tags(command_names, tags)]: the tracker and the
    caller's [tags] after the call, and how the call ended. *)
Definition register_tags (self : tracker) (command_names : list string)
    (tags : tags_arg) : (tracker * tags_arg) * outcome unit :=
  match tr_bot self with
  | None => ((self, tags), Raised AttributeError)
  | Some b =>
      let auto := config_plugins_tags_autoregister b in
      if negb (py_list_truthy (tags_list tags)) && negb (cfg_truthy auto)
      then ((self, tags), Returned tt)
      else
        let '((tg, final), r) :=
          register_tags_loop auto command_names
            (commands_tagged (tr_current self), tags_list tags) in
        ((set_current self (set_tagged (tr_current self) tg),
          tags_after tags final), r)
  end.

(** [tracker.reset()] *)
Definition reset (self : tracker) : tracker :=
  set_current self (empty_scope None).

(** [tracker.start(metadata)] *)
Definition start (self : tracker) (md : string * string) : tracker :=
  set_current self (empty_scope (Some md)).

(** [tracker.current()]: it refreshes the [all] view of the scope it
    returns. *)
Definition current (self : tracker) : tracker :=
  let sc := tr_current self in
  set_current self
    (Scope (commands_admin sc) (commands_user sc)
           (Some (list_set (commands_admin sc ++ commands_user sc)))
           (commands_tagged sc) (handlers sc) (shared sc) (metadata sc)).

(** The two keys of [_current["commands"]] the helpers register under. *)
Inductive command_type : Type := admin | user.

(** The first two lines of [tracker.register_command]. *)
Definition extend_commands (type : command_type) (command_names : list string)
    (sc : scope) : scope :=
  match type with
  | admin =>
      Scope (list_set (commands_admin sc ++ command_names)) (commands_user sc)
            (commands_all sc) (commands_tagged sc) (handlers sc) (shared sc)
            (metadata sc)
  | user =>
      Scope (commands_admin sc) (list_set (commands_user sc ++ command_names))
            (commands_all sc) (commands_tagged sc) (handlers sc) (shared sc)
            (metadata sc)
  end.

(** [tracker.register_command(type, command_names, tags)] *)
Definition register_command (self : tracker) (type : command_type)
    (command_names : list string) (tags : tags_arg)
    : (tracker * tags_arg) * outcome unit :=
  register_tags
    (set_current self (extend_commands type command_names (tr_current self)))
    command_names tags.


(** [tracker.register_shared(id, objectref, forgiving)] *)
Definition tracker_register_shared (self : tracker) (id : string)
    (objectref : callable) (forgiving : bool) : tracker :=
  let sc := tr_current self in
  set_current self
    (Scope (commands_admin sc) (commands_user sc) (commands_all sc)
           (commands_tagged sc) (handlers sc)
           (shared sc ++ [(id, objectref, forgiving)]) (metadata sc)).

End Tracker.

(** ** The module-level tracker and the public helpers *)

(** What the loader and the plugins act on: the module-level [tracking]
    object and the entries the host's handler registry ([bot._handlers]) has
    received. *)
Record world : Type := World {
  tracking : tracker;
  bot_handlers : list handler_entry
}.

Definition set_tracking (w : world) (t : tracker) : world :=
  World t (bot_handlers w).

(** The arguments the loader passes to an entry point: the host instance and
    its handler registry. *)
Inductive pyarg : Type := ArgBot | ArgHandlers.

(** What the loader does to its collaborators, in order: calls of plugin
    functions, calls of the command dispatcher ([command.register],
    [command.register_tags]) and the log lines of [load]. *)
Inductive event : Type :=
| Invoke (f : callable) (args : list pyarg)
| CommandRegister (f : callable) (is_admin final : bool)
| CommandRegisterTags (command_name : string) (command_tagsets : tagsets)
| LogException (phase module_path : string)
| LogInfo (module_name : string) (registered_commands : list string).

(** [tracker.end()]: the scope joins [self.list] and every tagged command is
    passed on to the dispatcher. *)
Definition tracker_end (self : tracker) : tracker * list event :=
  let self1 := current self in
  (Tracker (tr_bot self1) (tr_list self1 ++ [tr_current self1]) (tr_current self1),
   map (fun '(command_name, command_tagsets) =>
          CommandRegisterTags command_name command_tagsets)
       (commands_tagged (tr_current self1))).

(** The [command_names] argument of the helpers: a list, or one name that
    the helper wraps in a list. *)
Inductive names_arg : Type :=
| Name (command : string)
| Names (commands : list string).

Definition names_list (command_names : names_arg) : list string :=
  match command_names with
  | Name command => [command]
  | Names commands => commands
  end.

Section Helpers.

Variable py_format : string -> string -> option string.

(** [register_user_command(command_names, tags)] *)
Definition register_user_command (command_names : names_arg) (tags : tags_arg)
    (w : world) : (world * tags_arg) * outcome unit :=
  let '((t, tags'), r) :=
    register_command py_format (tracking w) user (names_list command_names) tags in
  ((set_tracking w t, tags'), r).

(** [register_admin_command(command_names, tags)] *)
Definition register_admin_command (command_names : names_arg) (tags : tags_arg)
    (w : world) : (world * tags_arg) * outcome unit :=
  let '((t, tags'), r) :=
    register_command py_format (tracking w) admin (names_list command_names) tags in
  ((set_tracking w t, tags'), r).

(** The method [register_handler] of the host's handler registry, which is
    not part of this module. *)
Variable handlers_register_handler :
  callable -> string -> Z -> world -> world * outcome unit.


End Helpers.


(** ** Plugin loader *)

(** What a plugin function gives back, as far as [load] looks at it:
    [type(_return) is list] or not. *)
Inductive pyvalue : Type :=
| VNone
| VList (names : list string)
| VOther.

(** A function of a plugin module: its identity, the parameter names
    [inspect.signature] reports, and what a call with the given positional
    arguments does. *)
Record pyfunction : Type := PyFunction {
  fn_id : callable;
  fn_params : list string;
  fn_call : list pyarg -> world -> world * outcome pyvalue
}.

Definition is_entry_point (function_name : string) : bool :=
  String.eqb function_name "_initialise" || String.eqb function_name "_initialize".

(** The call of [_initialise] in pass 1, from [inspect.signature] to the
    value of [_return]; the events are the calls made. *)
Definition call_entry_point (the_function : pyfunction) (w : world)
    : (world * list event) * outcome pyvalue :=
  let f := fn_id the_function in
  let _expected := fn_params the_function in
  if Nat.eqb (length _expected) 0 then
    let '(w1, r) := fn_call the_function [] w in
    ((w1, [Invoke f []]),
     match r with Returned _ => Returned (VList []) | Raised e => Raised e end)
  else if Nat.eqb (length _expected) 1
          && String.eqb (default "" (head _expected)) "bot" then
    let '(w1, r) := fn_call the_function [ArgBot] w in
    ((w1, [Invoke f [ArgBot]]),
     match r with Returned _ => Returned (VList []) | Raised e => Raised e end)
  else
    let '(w1, r1) := fn_call the_function [ArgHandlers; ArgBot] w in
    match r1 with
    | Raised e =>
        if is_TypeError e then
          let '(w2, r2) := fn_call the_function [ArgHandlers] w1 in
          ((w2, [Invoke f [ArgHandlers; ArgBot]; Invoke f [ArgHandlers]]), r2)
        else ((w1, [Invoke f [ArgHandlers; ArgBot]]), Raised e)
    | Returned v => ((w1, [Invoke f [ArgHandlers; ArgBot]]), Returned v)
    end.

(** The variables of pass 1.  [available_commands] is [None] while it holds
    its default [False]. *)
Record init_state : Type := InitState {
  init_world : world;
  init_events : list event;
  available_commands : option (list string);
  candidate_commands : list (string * pyfunction)
}.

(** One round of [for function_name, the_function in public_functions]. *)
Definition init_step (st : init_state) (member : string * pyfunction)
    : init_state * outcome unit :=
  let '(function_name, the_function) := member in
  if is_entry_point function_name then
    let '((w1, evs), r) := call_entry_point the_function (init_world st) in
    match r with
    | Returned _return =>
        (InitState w1 (init_events st ++ evs)
           (match _return with
            | VList names => Some names
            | _ => available_commands st
            end)
           (candidate_commands st),
         Returned tt)
    | Raised e =>
        (InitState w1 (init_events st ++ evs) (available_commands st)
           (candidate_commands st),
         Raised e)
    end
  else if PyStr.startswith function_name "_" then (st, Returned tt)
  else
    (InitState (init_world st) (init_events st) (available_commands st)
       (candidate_commands st ++ [member]),
     Returned tt).

Fixpoint init_loop (public_functions : list (string * pyfunction))
    (st : init_state) : init_state * outcome unit :=
  match public_functions with
  | [] => (st, Returned tt)
  | member :: rest =>
      match init_step st member with
      | (st', Returned _) => init_loop rest st'
      | (st', Raised e) => (st', Raised e)
      end
  end.

Section Loader.

Variable py_format : string -> string -> option string.

(** [exec("import {}".format(module_path))]: what importing the module does
    to the world, and how the import ends. *)
Variable import_module : string -> world -> world * outcome unit.

(** [getmembers(sys.modules[module_path], isfunction)]: the functions of the
    imported module by name, in the order of their names, or the exception
    the lookup raises.  The call stands between the two [try] blocks of
    [load], inside neither. *)
Variable getmembers :
  string -> world -> outcome (list (string * pyfunction)).

(** The [if available_commands is False: ... elif ... else: ...] that ends
    pass 1.  The test [available_commands is []] compares the list with a
    list made on the spot, which no other object is: the [elif] branch is
    never taken, and a list, empty or not, goes to the [else]. *)
Definition register_available (available : option (list string))
    (candidates : list (string * pyfunction)) (w : world)
    : world * outcome unit :=
  match available with
  | None =>
      let '((w1, _), r) :=
        register_user_command py_format (Names (map fst candidates)) TagsNone w in
      (w1, r)
  | Some names =>
      let '((w1, _), r) :=
        register_user_command py_format (Names names) TagsNone w in
      (w1, r)
  end.

(** Pass 1, the body of the [try]. *)
Definition pass1 (public_functions : list (string * pyfunction)) (w : world)
    : init_state * outcome unit :=
  match init_loop public_functions (InitState w [] None []) with
  | (st, Returned _) =>
      let '(w1, r) :=
        register_available (available_commands st) (candidate_commands st)
          (init_world st) in
      (InitState w1 (init_events st) (available_commands st)
         (candidate_commands st), r)
  | (st, Raised e) => (st, Raised e)
  end.

(** The loop of pass 2: the dispatcher calls and the names for the log. *)
Fixpoint register_candidates (explicit_admin_commands all_commands : list string)
    (candidates : list (string * pyfunction)) : list event * list string :=
  match candidates with
  | [] => ([], [])
  | (function_name, the_function) :: rest =>
      let '(evs, registered_commands) :=
        register_candidates explicit_admin_commands all_commands rest in
      if bool_decide (function_name ∈ all_commands) then
        let is_admin := bool_decide (function_name ∈ explicit_admin_commands) in
        (CommandRegister (fn_id the_function) is_admin true :: evs,
         (if is_admin then "*" +:+ function_name else function_name)
           :: registered_commands)
      else (evs, registered_commands)
  end.

(** Pass 2 and [tracking.end()]. *)
Definition pass2 (module_name : string) (candidates : list (string * pyfunction))
    (w : world) : world * list event :=
  let plugin_tracking := current (tracking w) in
  let sc := tr_current plugin_tracking in
  let '(evs, registered_commands) :=
    register_candidates (commands_admin sc) (default [] (commands_all sc))
      candidates in
  let '(t, flushed) := tracker_end plugin_tracking in
  (set_tracking w t, evs ++ [LogInfo module_name registered_commands] ++ flushed).

(** [load(bot, module_path, module_name=None)].  The host instance [bot] only
    travels to the entry point, as [ArgBot] and [ArgHandlers].  The call ends
    in [Raised] when an exception leaves it. *)
Definition load (module_path : string) (module_name : option string) (w : world)
    : (world * list event) * outcome unit :=
  let module_name := default (PyStr.last_component module_path) module_name in
  let w0 := set_tracking w (start (tracking w) (module_name, module_path)) in
  match import_module module_path w0 with
  | (w1, Raised e) =>
      if is_Exception e
      then ((w1, [LogException "import" module_path]), Returned tt)
      else ((w1, []), Raised e)
  | (w1, Returned _) =>
      match getmembers module_path w1 with
      | Raised e => ((w1, []), Raised e)
      | Returned public_functions =>
          match pass1 public_functions w1 with
          | (st, Raised e) =>
              if is_Exception e
              then ((init_world st,
                     init_events st ++ [LogException "init" module_path]),
                    Returned tt)
              else ((init_world st, init_events st), Raised e)
          | (st, Returned _) =>
              let '(w2, evs) :=
                pass2 module_name (candidate_commands st) (init_world st) in
              ((w2, init_events st ++ evs), Returned tt)
          end
      end
  end.

(** The loop of [load_user_plugins]. *)
Fixpoint load_modules (plugin_list : list string) (w : world)
    : (world * list event) * outcome unit :=
  match plugin_list with
  | [] => ((w, []), Returned tt)
  | module :: rest =>
      match load ("plugins." +:+ module) None w with
      | ((w1, evs), Returned _) =>
          let '((w2, evs'), r) := load_modules rest w1 in
          ((w2, evs ++ evs'), r)
      | ((w1, evs), Raised e) => ((w1, evs), Raised e)
      end
  end.

(** [load_user_plugins(bot)], over the listing of the plugins directory. *)
Definition load_user_plugins (bot : Bot) (plugins_dir : list node) (w : world)
    : (world * list event) * outcome unit :=
  load_modules
    (get_configured_plugins (retrieve_all_plugins plugins_dir None) (cfg_plugins bot))
    w.

End Loader.

(** ** Readings of the state used in the statements *)

(** [_current["commands"][type]] *)
Definition commands_of (type : command_type) (sc : scope) : list string :=
  match type with
  | admin => commands_admin sc
  | user => commands_user sc
  end.

Definition other_type (type : command_type) : command_type :=
  match type with admin => user | user => admin end.

(** The keys of a dictionary, in order. *)
Definition dict_keys {V} (d : dict V) : list string := map fst d.

(** The command of a [command.register_tags] call among the events. *)
Definition flushed_command (ev : event) : option string :=
  match ev with
  | CommandRegisterTags command_name _ => Some command_name
  | _ => None
  end.

(** The function of a [command.register] call among the events. *)
Definition registered_function (ev : event) : option callable :=
  match ev with
  | CommandRegister f _ _ => Some f
  | _ => None
  end.

(** ** Concrete objects for the examples *)

Fixpoint has_brace (s : string) : bool :=
  match s with
  | EmptyString => false
  | String a rest => Ascii.eqb a "{"%char || Ascii.eqb a "}"%char || has_brace rest
  end.

(** [template.format(arg)] on the templates the examples use: text without
    braces around at most one [{}] field.  Every other template is left out
    ([None]). *)
Fixpoint format_field (template arg : string) : option string :=
  match template with
  | EmptyString => Some EmptyString
  | String a rest =>
      if Ascii.eqb a "{"%char then
        match rest with
        | String b rest' =>
            if Ascii.eqb b "}"%char && negb (has_brace rest')
            then Some (arg +:+ rest')
            else None
        | EmptyString => None
        end
      else if Ascii.eqb a "}"%char then None
      else String a <$> format_field rest arg
  end.

(** A host that leaves both options unset. *)
Definition default_bot : Bot := MkBot CfgNone None.

(** The tracker after [set_bot(bot)], with nothing registered. *)
Definition fresh_tracker : tracker :=
  Tracker (Some default_bot) [] (empty_scope None).

(** A world with the fresh tracker and an empty handler registry. *)
Definition fresh_world : world := World fresh_tracker [].

(** [def _initialise(): raise RuntimeError("boom")] *)
Definition broken_initialise : pyfunction :=
  PyFunction "plugins.broken._initialise" []
    (λ args w,
       match args with
       | [] => (w, Raised (OtherException "RuntimeError"))
       | _ => (w, Raised TypeError)
       end).

(** [def _initialise(bot): pass] *)
Definition modern_initialise : pyfunction :=
  PyFunction "plugins.modern._initialise" ["bot"]
    (λ args w,
       match args with
       | [_] => (w, Returned VNone)
       | _ => (w, Raised TypeError)
       end).

(** [def _initialise(Handlers, bot): return []] *)
Definition quiet_initialise : pyfunction :=
  PyFunction "plugins.quiet._initialise" ["Handlers"; "bot"]
    (λ args w,
       match args with
       | [_; _] => (w, Returned (VList []))
       | _ => (w, Raised TypeError)
       end).

(** [def _initialise(handlers): return ["old"]] *)
Definition ancient_initialise : pyfunction :=
  PyFunction "plugins.ancient._initialise" ["handlers"]
    (λ args w,
       match args with
       | [_] => (w, Returned (VList ["old"]))
       | _ => (w, Raised TypeError)
       end).

(** A command function [def name(bot, event, *args)]: the loader never calls
    it. *)
Definition command_function (id : callable) : pyfunction :=
  PyFunction id ["bot"; "event"; "args"] (λ _ w, (w, Returned VNone)).

(** [def _initialise(bot): plugins.register_user_command(["hello"]);
    raise RuntimeError()] *)
Definition bad_initialise : pyfunction :=
  PyFunction "plugins.bad._initialise" ["bot"]
    (λ args w,
       match args with
       | [_] =>
           match register_user_command format_field (Names ["hello"]) TagsNone w with
           | ((w1, _), Returned _) => (w1, Raised (OtherException "RuntimeError"))
           | ((w1, _), Raised e) => (w1, Raised e)
           end
       | _ => (w, Raised TypeError)
       end).

(** [def _initialise(): sys.exit()] *)
Definition exiting_initialise : pyfunction :=
  PyFunction "plugins.exiting._initialise" []
    (λ args w,
       match args with
       | [] => (w, Raised (ExitException "SystemExit"))
       | _ => (w, Raised TypeError)
       end).

(** The modules of the examples: their functions, by name. *)
Definition example_modules : list (string * list (string * pyfunction)) :=
  [("plugins.broken",
    [("_initialise", broken_initialise);
     ("hello", command_function "plugins.broken.hello")]);
   ("plugins.bad",
    [("_initialise", bad_initialise);
     ("hello", command_function "plugins.bad.hello")]);
   ("plugins.exiting",
    [("_initialise", exiting_initialise);
     ("bye", command_function "plugins.exiting.bye")]);
   ("plugins.quiet",
    [("_initialise", quiet_initialise);
     ("shout", command_function "plugins.quiet.shout")]);
   ("plugins.ancient",
    [("_initialise", ancient_initialise);
     ("old", command_function "plugins.ancient.old")]);
   ("plugins.echo",
    [("echo", command_function "plugins.echo.echo")])].

(** Importing a module of the examples does nothing to the world; any other
    module cannot be imported. *)
Definition example_import (module_path : string) (w : world)
    : world * outcome unit :=
  match dict_get module_path example_modules with
  | Some _ => (w, Returned tt)
  | None => (w, Raised (OtherException "ImportError"))
  end.

(** [getmembers] on the modules of the examples; the lookup in [sys.modules]
    of any other module raises [KeyError]. *)
Definition example_getmembers (module_path : string) (w : world)
    : outcome (list (string * pyfunction)) :=
  match dict_get module_path example_modules with
  | Some public_functions => Returned public_functions
  | None => Raised (OtherException "KeyError")
  end.

(** The dispatcher calls among the events. *)
Definition is_dispatcher_event (ev : event) : bool :=
  match ev with
  | CommandRegister _ _ _ | CommandRegisterTags _ _ => true
  | _ => false
  end.


Example splitext_py : PyStr.splitext_root "echo.py" = "echo".
Proof. reflexivity. Qed.

Example splitext_hidden : PyStr.splitext_root ".cshrc" = ".cshrc".
Proof. reflexivity. Qed.

Example endswith_fragment : PyStr.endswith "plugins.a.b" ".b" = true.
Proof. reflexivity. Qed.

Example lister_tree :
  retrieve_all_plugins
    [File "echo.py"; File "_private.py"; File "notes.txt";
     Dir "mentions" [File "__init__.py"; File "mentions_extra.py"; File "other.py"];
     Dir "loose" [File "loose.py"]]
    None
  = ["echo"; "mentions"; "mentions.mentions_extra"].
Proof. reflexivity. Qed.

Example selector_ambiguous :
  select_plugins ["a.b"; "c.b"; "d"] ["b"]
  = Selection [] ["a.b"; "c.b"; "d"] ["b"] [].
Proof. reflexivity. Qed.

Example load_quiet :
  (load format_field example_import example_getmembers "plugins.quiet" None fresh_world).1.2
  = [Invoke "plugins.quiet._initialise" [ArgHandlers; ArgBot]; LogInfo "quiet" []].
Proof. reflexivity. Qed.

Example load_echo :
  (load format_field example_import example_getmembers "plugins.echo" None fresh_world).1.2
  = [CommandRegister "plugins.echo.echo" false true; LogInfo "echo" ["echo"];
     CommandRegisterTags "echo" {[ {[ "execute-echo" ]} ]}].
Proof. reflexivity. Qed.

Example load_ancient :
  (load format_field example_import example_getmembers "plugins.ancient" None fresh_world).1.2
  = [Invoke "plugins.ancient._initialise" [ArgHandlers; ArgBot];
     Invoke "plugins.ancient._initialise" [ArgHandlers];
     CommandRegister "plugins.ancient.old" false true; LogInfo "ancient" ["old"];
     CommandRegisterTags "old" {[ {[ "execute-old" ]} ]}].
Proof. reflexivity. Qed.

Example load_bad_then_echo :
  omap registered_function
    (load_modules format_field example_import example_getmembers ["bad"; "echo"]
       fresh_world).1.2
  = ["plugins.echo.echo"]
  ∧ omap flushed_command
      (load_modules format_field example_import example_getmembers ["bad"; "echo"]
         fresh_world).1.2
    = ["echo"]
  ∧ map metadata
      (tr_list
         (tracking
            (load_modules format_field example_import example_getmembers
               ["bad"; "echo"] fresh_world).1.1))
    = [Some ("echo", "plugins.echo")].
Proof. repeat split; reflexivity. Qed.

Example load_unknown_members :
  load format_field (λ _ w, (w, Returned tt)) example_getmembers "plugins.gone"
    None fresh_world
  = ((set_tracking fresh_world (start fresh_tracker ("gone", "plugins.gone")), []),
     Raised (OtherException "KeyError")).
Proof. reflexivity. Qed.

Example load_missing :
  load format_field example_import example_getmembers "plugins.nothing" None fresh_world
  = ((set_tracking fresh_world (start fresh_tracker ("nothing", "plugins.nothing")),
      [LogException "import" "plugins.nothing"]), Returned tt).
Proof. reflexivity. Qed.

Example register_tags_custom_template :
  (register_tags format_field
     (Tracker (Some (MkBot (CfgStr "run-{}") None)) [] (empty_scope None))
     ["ping"] TagsNone).1.1
  = Tracker (Some (MkBot (CfgStr "run-{}") None)) []
      (set_tagged (empty_scope None) [("ping", {[ {[ "run-ping" ]} ]})]).
Proof. reflexivity. Qed.

Example register_tags_disabled :
  register_tags format_field
     (Tracker (Some (MkBot (CfgBool false) None)) [] (empty_scope None))
     ["ping"] TagsNone
  = ((Tracker (Some (MkBot (CfgBool false) None)) [] (empty_scope None), TagsNone),
      Returned tt).
Proof. reflexivity. Qed.

Example register_tags_combination :
  stored
    (commands_tagged
       (tr_current
          (register_tags format_field fresh_tracker ["kick"]
             (TagsList [TagCombo ["mod"; "trusted"]; Tag "admin"])).1.1))
    "kick"
  = {[ {[ "mod"; "trusted" ]}; {[ "admin" ]}; {[ "execute-kick" ]} ]}.
Proof. apply (bool_decide_unpack _). vm_compute. exact I. Qed.

(** * Properties *)

(** ** Module lister *)

Lemma retrieve_all_plugins_app before after must_start_with :
  retrieve_all_plugins (before ++ after) must_start_with
  = retrieve_all_plugins before must_start_with
    ++ retrieve_all_plugins after must_start_with.
Proof. unfold retrieve_all_plugins. apply flat_map_app. Qed.

Lemma retrieve_all_plugins_cons n after must_start_with :
  retrieve_all_plugins (n :: after) must_start_with
  = scan_node must_start_with n ++ retrieve_all_plugins after must_start_with.
Proof. reflexivity. Qed.

Lemma scan_node_hidden must_start_with n :
  PyStr.startswith (node_name n) "." = true
  ∨ PyStr.startswith (node_name n) "_" = true →
  scan_node must_start_with n = [].
Proof.
  intros Hskip. destruct n as [name | name entries]; simpl in *.
  - destruct Hskip as [-> | ->]; [by rewrite orb_true_r | done].
  - destruct Hskip as [-> | ->]; [by rewrite orb_true_r | done].
Qed.

Lemma scan_node_no_init must_start_with name entries :
  has_init entries = false →
  scan_node must_start_with (Dir name entries) = [].
Proof.
  intros Hinit. simpl. rewrite Hinit.
  by repeat case_match.
Qed.

Lemma scan_node_package must_start_with name entries :
  PyStr.startswith name "." = false →
  PyStr.startswith name "_" = false →
  fails_prefix must_start_with name = false →
  has_init entries = true →
  scan_node must_start_with (Dir name entries)
  = PyStr.splitext_root name
    :: map (λ child, PyStr.splitext_root name +:+ "." +:+ child)
           (retrieve_all_plugins entries (Some name)).
Proof.
  intros Hdot Hunder Hprefix Hinit. simpl in *.
  by rewrite Hdot, Hunder, Hprefix, Hinit.
Qed.

(** C9: a directory without an index module ([__init__.py]) adds nothing to
    the listing, whatever source files it holds; an entry whose name starts
    with "." or "_" adds nothing; a directory that qualifies is listed under
    its module name, followed by its children, found with the directory's
    name as required prefix and each named [parentName.childName]. *)
Theorem lister_excludes_and_nests :
  ∀ (before after : list node) (must_start_with : option string),
    (∀ name entries,
        has_init entries = false →
        retrieve_all_plugins (before ++ Dir name entries :: after) must_start_with
        = retrieve_all_plugins (before ++ after) must_start_with)
    ∧ (∀ n,
        PyStr.startswith (node_name n) "." = true
        ∨ PyStr.startswith (node_name n) "_" = true →
        retrieve_all_plugins (before ++ n :: after) must_start_with
        = retrieve_all_plugins (before ++ after) must_start_with)
    ∧ (∀ name entries,
        PyStr.startswith name "." = false →
        PyStr.startswith name "_" = false →
        fails_prefix must_start_with name = false →
        has_init entries = true →
        retrieve_all_plugins (before ++ Dir name entries :: after) must_start_with
        = retrieve_all_plugins before must_start_with
          ++ (PyStr.splitext_root name
              :: map (λ childName, PyStr.splitext_root name +:+ "." +:+ childName)
                     (retrieve_all_plugins entries (Some name)))
          ++ retrieve_all_plugins after must_start_with).
Proof.
  intros before after must_start_with. split; [| split].
  - intros name entries Hinit.
    rewrite !retrieve_all_plugins_app, retrieve_all_plugins_cons.
    by rewrite scan_node_no_init.
  - intros n Hskip.
    rewrite !retrieve_all_plugins_app, retrieve_all_plugins_cons.
    by rewrite scan_node_hidden.
  - intros name entries Hdot Hunder Hprefix Hinit.
    rewrite retrieve_all_plugins_app, retrieve_all_plugins_cons.
    by rewrite scan_node_package.
Qed.

Lemma lister_excludes_and_nests_witness :
  retrieve_all_plugins
    ([File "echo.py"] ++ Dir "loose" [File "loose.py"] :: [File "ping.py"]) None
  = ["echo"; "ping"]
  ∧ retrieve_all_plugins
      ([File "echo.py"] ++ File "_private.py" :: [File "ping.py"]) None
    = ["echo"; "ping"]
  ∧ retrieve_all_plugins
      ([File "echo.py"]
       ++ Dir "mentions" [File "__init__.py"; File "mentions_extra.py"; File "other.py"]
       :: [File "ping.py"]) None
    = ["echo"; "mentions"; "mentions.mentions_extra"; "ping"].
Proof.
  destruct (lister_excludes_and_nests [File "echo.py"] [File "ping.py"] None)
    as (Hno_init & Hhidden & Hpackage).
  split; [| split].
  - rewrite (Hno_init "loose" [File "loose.py"]); reflexivity.
  - rewrite (Hhidden (File "_private.py")); [reflexivity | right; reflexivity].
  - rewrite (Hpackage "mentions"); reflexivity.
Defined.

(** ** Plugin selector *)

Lemma elem_of_matches_of configured pool found :
  found ∈ matches_of configured pool
  ↔ found ∈ pool
    ∧ PyStr.endswith ("plugins." +:+ found) ("." +:+ configured) = true.
Proof.
  unfold matches_of. rewrite !list_elem_of_In, filter_In. tauto.
Qed.

Lemma list_remove_subseteq x l : list_remove x l ⊆ l.
Proof.
  induction l as [| y l IH]; simpl; [reflexivity |].
  destruct (String.eqb y x).
  - intros z Hz. by apply elem_of_cons; right.
  - intros z. rewrite !elem_of_cons. intros [-> | Hz]; [by left | right; by apply IH].
Qed.

(** The one match of a fragment occurs once in the pool, so removing it
    leaves none behind. *)
Lemma unique_match_removed configured pool m :
  matches_of configured pool = [m] → m ∉ list_remove m pool.
Proof.
  unfold matches_of. induction pool as [| y pool IH]; simpl; [done |].
  destruct (PyStr.endswith ("plugins." +:+ y) ("." +:+ configured)) eqn:Hy.
  - intros [= -> Hrest]. rewrite String.eqb_refl.
    intros Hin.
    assert (m ∈ List.filter
              (λ found, PyStr.endswith ("plugins." +:+ found) ("." +:+ configured))
              pool) as Hin'.
    { rewrite list_elem_of_In, filter_In, <- list_elem_of_In. done. }
    rewrite Hrest in Hin'. by apply elem_of_nil in Hin'.
  - intros Hrest. destruct (String.eqb y m) eqn:Hym.
    + apply String.eqb_eq in Hym as ->.
      assert (m ∈ [m]) as Hin by set_solver.
      rewrite <- Hrest, list_elem_of_In, filter_In in Hin.
      destruct Hin as [_ Hin]. congruence.
    + rewrite not_elem_of_cons. split; [| by apply IH].
      intros ->. by rewrite String.eqb_refl in Hym.
Qed.

Lemma select_step_pool st configured :
  plugins_excluded (select_step st configured) ⊆ plugins_excluded st.
Proof.
  unfold select_step.
  destruct (matches_of configured (plugins_excluded st)) as [| m [| m' ms]];
    simpl; [done | apply list_remove_subseteq | done].
Qed.

(** What a round adds to the included list comes from the pool. *)
Lemma select_step_included st configured :
  ∃ added, plugins_included (select_step st configured)
           = plugins_included st ++ added
           ∧ added ⊆ plugins_excluded st.
Proof.
  unfold select_step.
  destruct (matches_of configured (plugins_excluded st)) as [| m [| m' ms]] eqn:Hm;
    simpl.
  - exists []. split; [by rewrite app_nil_r | apply list_subseteq_nil].
  - exists [m]. split; [reflexivity |].
    assert (m ∈ matches_of configured (plugins_excluded st)) as Hin
      by (rewrite Hm; set_solver).
    apply elem_of_matches_of in Hin. set_solver.
  - exists []. split; [by rewrite app_nil_r | apply list_subseteq_nil].
Qed.

Lemma select_rounds_without later : ∀ st m,
  m ∉ plugins_excluded st →
  (m ∉ plugins_excluded (fold_left select_step later st))
  ∧ (∃ added, plugins_included (fold_left select_step later st)
              = plugins_included st ++ added
              ∧ m ∉ added).
Proof.
  induction later as [| configured later IH]; intros st m Hm; simpl.
  - split; [done |]. exists []. rewrite app_nil_r. set_solver.
  - pose proof (select_step_pool st configured) as Hpool.
    destruct (select_step_included st configured) as (added & Hadd & Hsub).
    destruct (IH (select_step st configured) m) as (Hout & added' & Hadd' & Hnot).
    { set_solver. }
    split; [done |].
    exists (added ++ added'). rewrite Hadd', Hadd, <- app_assoc.
    split; [done | set_solver].
Qed.

(** C6: the matches of a fragment are the names of the pool whose full name
    ["plugins." + name] ends with ["." + fragment]; a fragment with more than
    one match is recorded as ambiguous and adds nothing to the included list;
    a fragment with one match has it included.  With "a.b", "c.b" and "d"
    discovered, ["b"] is ambiguous and includes neither "a.b" nor "c.b", and
    ["d"] includes exactly "d". *)
Theorem selector_ambiguous_or_unique :
  (∀ configured pool found,
      found ∈ matches_of configured pool
      ↔ found ∈ pool
        ∧ PyStr.endswith ("plugins." +:+ found) ("." +:+ configured) = true)
  ∧ (∀ st configured,
      1 < length (matches_of configured (plugins_excluded st)) →
      select_step st configured
      = Selection (plugins_included st) (plugins_excluded st)
                  (plugin_name_ambiguous st ++ [configured])
                  (plugin_name_not_found st))
  ∧ (∀ st configured m,
      matches_of configured (plugins_excluded st) = [m] →
      plugins_included (select_step st configured) = plugins_included st ++ [m]
      ∧ plugin_name_ambiguous (select_step st configured) = plugin_name_ambiguous st
      ∧ plugin_name_not_found (select_step st configured) = plugin_name_not_found st)
  ∧ select_plugins ["a.b"; "c.b"; "d"] ["b"]
    = Selection [] ["a.b"; "c.b"; "d"] ["b"] []
  ∧ get_configured_plugins ["a.b"; "c.b"; "d"] (Some ["b"]) = []
  ∧ get_configured_plugins ["a.b"; "c.b"; "d"] (Some ["d"]) = ["d"].
Proof.
  split; [exact elem_of_matches_of |].
  split.
  { intros st configured Hmany. unfold select_step.
    destruct (matches_of configured (plugins_excluded st)) as [| m [| m' ms]];
      simpl in Hmany; [lia | lia | reflexivity]. }
  split.
  { intros st configured m Hone. unfold select_step. rewrite Hone. done. }
  repeat split.
Qed.

Lemma selector_ambiguous_or_unique_witness :
  select_step (Selection [] ["a.b"; "c.b"; "d"] [] []) "b"
  = Selection [] ["a.b"; "c.b"; "d"] ["b"] []
  ∧ plugins_included (select_step (Selection [] ["a.b"; "c.b"; "d"] [] []) "d")
    = ["d"].
Proof.
  destruct selector_ambiguous_or_unique as (_ & Hmany & Hone & _).
  split.
  - apply (Hmany (Selection [] ["a.b"; "c.b"; "d"] [] []) "b").
    vm_compute. lia.
  - apply (Hone (Selection [] ["a.b"; "c.b"; "d"] [] []) "d" "d").
    reflexivity.
Defined.

(** C7: the fragments are taken in the order given, one round each; the
    plugin a fragment claims leaves the pool, stays out of it in every later
    round and is included once only.  With "x.y" discovered and
    ["y"; "y"] configured, the first "y" includes "x.y" and the second is
    recorded as not found. *)
Theorem selector_claims_in_order :
  (∀ all_plugins configured later,
      select_plugins all_plugins (configured :: later)
      = fold_left select_step later
          (select_step (Selection [] all_plugins [] []) configured))
  ∧ (∀ st configured m later,
      matches_of configured (plugins_excluded st) = [m] →
      plugins_excluded (select_step st configured)
      = list_remove m (plugins_excluded st)
      ∧ (m ∉ plugins_excluded (select_step st configured))
      ∧ (m ∉ plugins_excluded (fold_left select_step later (select_step st configured)))
      ∧ (∃ added,
          plugins_included (fold_left select_step later (select_step st configured))
          = plugins_included st ++ m :: added
          ∧ m ∉ added))
  ∧ select_plugins ["x.y"] ["y"; "y"] = Selection ["x.y"] [] [] ["y"].
Proof.
  split; [reflexivity |].
  split; [| reflexivity].
  intros st configured m later Hone.
  assert (plugins_excluded (select_step st configured)
          = list_remove m (plugins_excluded st)) as Hpool.
  { unfold select_step. by rewrite Hone. }
  assert (plugins_included (select_step st configured)
          = plugins_included st ++ [m]) as Hincl.
  { unfold select_step. by rewrite Hone. }
  assert (m ∉ plugins_excluded (select_step st configured)) as Hgone.
  { rewrite Hpool. by eapply unique_match_removed. }
  destruct (select_rounds_without later (select_step st configured) m Hgone)
    as (Hout & added & Hadd & Hnot).
  repeat split; try done.
  exists added. split; [| done].
  by rewrite Hadd, Hincl, <- app_assoc.
Qed.

Lemma selector_claims_in_order_witness :
  "x.y" ∉ plugins_excluded
            (fold_left select_step ["y"] (select_step (Selection [] ["x.y"] [] []) "y")).
Proof.
  destruct selector_claims_in_order as (_ & Hclaim & _).
  destruct (Hclaim (Selection [] ["x.y"] [] []) "y" "x.y" ["y"]) as (_ & _ & Hout & _).
  - reflexivity.
  - exact Hout.
Defined.

(** ** Registration tracker *)

Lemma dict_get_set_eq {V} (k : string) (v : V) (d : dict V) :
  dict_get k (dict_set k v d) = Some v.
Proof.
  induction d as [| [k' v'] d IH]; simpl.
  - by rewrite String.eqb_refl.
  - destruct (String.eqb k' k) eqn:Hk; simpl; by rewrite Hk.
Qed.

Lemma dict_get_set_ne {V} (k k' : string) (v : V) (d : dict V) :
  k ≠ k' → dict_get k' (dict_set k v d) = dict_get k' d.
Proof.
  intros Hne. induction d as [| [k0 v0] d IH]; simpl.
  - destruct (String.eqb k k') eqn:Hk; [| done].
    by apply String.eqb_eq in Hk.
  - destruct (String.eqb k0 k) eqn:Hk; simpl.
    + apply String.eqb_eq in Hk as ->.
      destruct (String.eqb k k') eqn:Hk'; [| done].
      by apply String.eqb_eq in Hk'.
    + by rewrite IH.
Qed.

Lemma stored_set_eq k v tg : stored (dict_set k v tg) k = v.
Proof. unfold stored. by rewrite dict_get_set_eq. Qed.

Lemma stored_set_ne k k' v tg : k ≠ k' → stored (dict_set k v tg) k' = stored tg k'.
Proof. intros Hne. unfold stored. by rewrite dict_get_set_ne. Qed.

Lemma covers_refl tg : covers tg tg.
Proof. intros n. split; [done | set_solver]. Qed.

Lemma covers_trans tg1 tg2 tg3 : covers tg1 tg2 → covers tg2 tg3 → covers tg1 tg3.
Proof.
  intros H12 H23 n. destruct (H12 n) as [Hk Hs], (H23 n) as [Hk' Hs'].
  split; [auto | set_solver].
Qed.

Lemma covers_set k v tg : stored tg k ⊆ v → covers tg (dict_set k v tg).
Proof.
  intros Hsub n. destruct (decide (k = n)) as [<- | Hne].
  - rewrite stored_set_eq, dict_get_set_eq. split; [eauto | done].
  - rewrite stored_set_ne, dict_get_set_ne by done. split; [done | set_solver].
Qed.

Lemma ensure_key_has command tg : is_Some (dict_get command (ensure_key command tg)).
Proof.
  unfold ensure_key. destruct (dict_get command tg) eqn:Hget.
  - rewrite Hget. eauto.
  - rewrite dict_get_set_eq. eauto.
Qed.

Lemma ensure_key_present command tg :
  is_Some (dict_get command tg) → ensure_key command tg = tg.
Proof. intros [v Hv]. unfold ensure_key. by rewrite Hv. Qed.

Lemma stored_ensure_key command tg n :
  stored (ensure_key command tg) n = stored tg n.
Proof.
  unfold ensure_key. destruct (dict_get command tg) eqn:Hget; [done |].
  destruct (decide (command = n)) as [<- | Hne].
  - rewrite stored_set_eq. unfold stored. by rewrite Hget.
  - by rewrite stored_set_ne.
Qed.

Lemma covers_ensure_key command tg : covers tg (ensure_key command tg).
Proof.
  intros n. rewrite stored_ensure_key. split; [| done].
  unfold ensure_key. destruct (dict_get command tg) eqn:Hget; [done |].
  intros [v Hv]. destruct (decide (command = n)) as [<- | Hne].
  - congruence.
  - rewrite dict_get_set_ne by done. eauto.
Qed.

#[local] Arguments register_tags_step : simpl never.
#[local] Arguments register_tags_loop : simpl never.
#[local] Arguments config_plugins_tags_autoregister : simpl never.

Section TrackerProperties.

Variable py_format : string -> string -> option string.

Lemma covers_store_tagsets command base tg :
  covers tg (store_tagsets command base tg).
Proof.
  unfold store_tagsets. case_decide; [| apply covers_refl].
  apply covers_set. set_solver.
Qed.

Lemma stored_store_tagsets_ne command base tg n :
  command ≠ n → stored (store_tagsets command base tg) n = stored tg n.
Proof.
  intros Hne. unfold store_tagsets. case_decide; [| done].
  by rewrite stored_set_ne.
Qed.

(** Once the tag-sets of [base] have gone through [store_tagsets], storing
    the same tag-sets again changes nothing, also after the dictionary has
    grown. *)
Lemma store_tagsets_settled command base base' tg tg2 :
  tagsets_of base' = tagsets_of base →
  covers (store_tagsets command base tg) tg2 →
  store_tagsets command base' tg2 = tg2.
Proof.
  intros Hsame Hcov. destruct (Hcov command) as [_ Hsub].
  unfold store_tagsets in *. rewrite Hsame.
  destruct (decide (stored tg2 command ⊂ tagsets_of base)) as [Hstrict |]; [| done].
  exfalso. destruct (decide (stored tg command ⊂ tagsets_of base)) as [Hfirst | Hfirst].
  - rewrite stored_set_eq in Hsub. set_solver.
  - apply Hfirst. set_solver.
Qed.

Lemma register_tags_step_unfold auto tg tags command :
  register_tags_step py_format auto (tg, tags) command
  = if cfg_truthy auto then
      match synthesize py_format auto command with
      | None => ((ensure_key command tg, tags), Raised FormatError)
      | Some t =>
          ((store_tagsets command (tags ++ [Tag t]) (ensure_key command tg),
            if py_list_truthy tags then tags ++ [Tag t] else tags),
           Returned tt)
      end
    else ((store_tagsets command tags (ensure_key command tg), tags), Returned tt).
Proof. reflexivity. Qed.

Lemma register_tags_step_covers auto tg tags command tg' tags' r :
  register_tags_step py_format auto (tg, tags) command = ((tg', tags'), r) →
  covers tg tg'.
Proof.
  rewrite register_tags_step_unfold. intros Hstep.
  repeat case_match; simplify_eq;
    eauto using covers_trans, covers_ensure_key, covers_store_tagsets.
Qed.

Lemma register_tags_loop_cons auto command rest st :
  register_tags_loop py_format auto (command :: rest) st
  = match register_tags_step py_format auto st command with
    | (st', Returned _) => register_tags_loop py_format auto rest st'
    | (st', Raised e) => (st', Raised e)
    end.
Proof. reflexivity. Qed.

Lemma register_tags_loop_covers auto command_names : ∀ tg tags tg' tags' r,
  register_tags_loop py_format auto command_names (tg, tags) = ((tg', tags'), r) →
  covers tg tg'.
Proof.
  induction command_names as [| command rest IH]; intros tg tags tg' tags' r.
  - intros [= <- <- <-]. apply covers_refl.
  - rewrite register_tags_loop_cons.
    destruct (register_tags_step py_format auto (tg, tags) command)
      as [[tg1 tags1] [[] | e]] eqn:Hstep.
    + intros Hloop.
      exact (covers_trans _ _ _ (register_tags_step_covers _ _ _ _ _ _ _ Hstep)
               (IH _ _ _ _ _ Hloop)).
    + intros [= <- <- <-]. exact (register_tags_step_covers _ _ _ _ _ _ _ Hstep).
Qed.

(** A round that has run once runs the same way on any dictionary that
    covers its result, and leaves that dictionary as it is. *)
Lemma register_tags_step_settled auto tg tags command tg' tags' r tg2 :
  register_tags_step py_format auto (tg, tags) command = ((tg', tags'), r) →
  covers tg' tg2 →
  register_tags_step py_format auto (tg2, tags) command = ((tg2, tags'), r).
Proof.
  rewrite !register_tags_step_unfold. intros Hstep Hcov.
  assert (ensure_key command tg2 = tg2) as Hkey.
  { apply ensure_key_present. apply (Hcov command).
    repeat case_match; simplify_eq;
      first [ apply ensure_key_has
            | apply (covers_store_tagsets command _ (ensure_key command tg) command),
                ensure_key_has ]. }
  rewrite Hkey.
  repeat case_match; simplify_eq; try done;
    by erewrite store_tagsets_settled.
Qed.

Lemma register_tags_loop_settled auto command_names : ∀ tg tags tg' tags' r tg2,
  register_tags_loop py_format auto command_names (tg, tags) = ((tg', tags'), r) →
  covers tg' tg2 →
  register_tags_loop py_format auto command_names (tg2, tags) = ((tg2, tags'), r).
Proof.
  induction command_names as [| command rest IH];
    intros tg tags tg' tags' r tg2.
  - by intros [= <- <- <-] _.
  - rewrite !register_tags_loop_cons.
    destruct (register_tags_step py_format auto (tg, tags) command)
      as [[tg1 tags1] [[] | e]] eqn:Hstep.
    + intros Hloop Hcov.
      rewrite (register_tags_step_settled _ _ _ _ _ _ _ tg2 Hstep).
      * exact (IH _ _ _ _ _ _ Hloop Hcov).
      * exact (covers_trans _ _ _ (register_tags_loop_covers _ _ _ _ _ _ _ Hloop) Hcov).
    + intros [= <- <- <-] Hcov.
      by rewrite (register_tags_step_settled _ _ _ _ _ _ _ tg2 Hstep Hcov).
Qed.

Lemma tagsets_of_app base base' :
  tagsets_of (base ++ base') = tagsets_of base ∪ tagsets_of base'.
Proof. unfold tagsets_of. by rewrite map_app, list_to_set_app_L. Qed.

(** The round run again on its own result, with the list it left behind. *)
Lemma register_tags_step_again auto tg tags command tg' tags' r :
  register_tags_step py_format auto (tg, tags) command = ((tg', tags'), r) →
  (register_tags_step py_format auto (tg', tags') command).1.1 = tg'.
Proof.
  rewrite !register_tags_step_unfold. intros Hstep.
  assert (is_Some (dict_get command tg')) as Hkey.
  { repeat case_match; simplify_eq;
      first [ apply ensure_key_has
            | apply (covers_store_tagsets command _ (ensure_key command tg) command),
                ensure_key_has ]. }
  rewrite (ensure_key_present _ _ Hkey).
  destruct (cfg_truthy auto); [destruct (synthesize py_format auto command) |];
    simplify_eq; simpl; try done.
  - eapply store_tagsets_settled; [| apply covers_refl].
    destruct tags as [| item items]; simpl; [done |].
    change (item :: (items ++ [Tag s]) ++ [Tag s])
      with (((item :: items) ++ [Tag s]) ++ [Tag s]).
    change (item :: items ++ [Tag s]) with ((item :: items) ++ [Tag s]).
    rewrite !tagsets_of_app.
    by rewrite <- (assoc_L (∪)), (idemp_L (∪) (tagsets_of [Tag s])).
  - eapply store_tagsets_settled; [done | apply covers_refl].
Qed.

Lemma set_tagged_same self :
  set_current self (set_tagged (tr_current self) (commands_tagged (tr_current self)))
  = self.
Proof. by destruct self as [b l []]. Qed.

Lemma register_tags_unfold self command_names tags :
  register_tags py_format self command_names tags
  = match tr_bot self with
    | None => ((self, tags), Raised AttributeError)
    | Some b =>
        let auto := config_plugins_tags_autoregister b in
        if negb (py_list_truthy (tags_list tags)) && negb (cfg_truthy auto)
        then ((self, tags), Returned tt)
        else
          let res :=
            register_tags_loop py_format auto command_names
              (commands_tagged (tr_current self), tags_list tags) in
          ((set_current self (set_tagged (tr_current self) res.1.1),
            tags_after tags res.1.2), res.2)
    end.
Proof.
  unfold register_tags. destruct (tr_bot self); [| done].
  case_match; [done |].
  by destruct (register_tags_loop _ _ _ _) as [[tg final] r].
Qed.

Lemma register_tags_covers self command_names tags :
  covers (commands_tagged (tr_current self))
    (commands_tagged
       (tr_current (register_tags py_format self command_names tags).1.1)).
Proof.
  rewrite register_tags_unfold. destruct (tr_bot self); [| apply covers_refl].
  simpl. case_match; [apply covers_refl |].
  destruct (register_tags_loop _ _ _ _) as [[tg final] r] eqn:Hloop. simpl.
  exact (register_tags_loop_covers _ _ _ _ _ _ _ Hloop).
Qed.

Lemma register_tags_twice self command_names tags :
  register_tags py_format
    (register_tags py_format self command_names tags).1.1 command_names tags
  = register_tags py_format self command_names tags.
Proof.
  rewrite (register_tags_unfold self). destruct (tr_bot self) as [b |] eqn:Hbot.
  - simpl. case_match eqn:Hearly.
    + simpl. rewrite register_tags_unfold, Hbot. simpl. by rewrite Hearly.
    + destruct (register_tags_loop _ _ _ _) as [[tg final] r] eqn:Hloop.
      rewrite register_tags_unfold. simpl. rewrite Hbot. simpl. rewrite Hearly.
      rewrite (register_tags_loop_settled _ _ _ _ _ _ _ tg Hloop (covers_refl tg)).
      simpl. by destruct self as [b0 l []].
  - simpl. by rewrite register_tags_unfold, Hbot.
Qed.

Lemma register_tags_again self command tags :
  (register_tags py_format
     (register_tags py_format self [command] tags).1.1 [command]
     (register_tags py_format self [command] tags).1.2).1.1
  = (register_tags py_format self [command] tags).1.1.
Proof.
  rewrite (register_tags_unfold self). destruct (tr_bot self) as [b |] eqn:Hbot.
  - simpl. case_match eqn:Hearly.
    + simpl. rewrite register_tags_unfold, Hbot. simpl. by rewrite Hearly.
    + destruct (register_tags_step py_format (config_plugins_tags_autoregister b)
                  (commands_tagged (tr_current self), tags_list tags) command)
        as [[tg final] r] eqn:Hstep.
      assert (register_tags_loop py_format (config_plugins_tags_autoregister b)
                [command] (commands_tagged (tr_current self), tags_list tags)
              = ((tg, final), r)) as Hloop.
      { rewrite register_tags_loop_cons, Hstep. by destruct r as [[] |]. }
      rewrite Hloop. simpl.
      rewrite register_tags_unfold. simpl. rewrite Hbot. simpl.
      case_match; [done |]. simpl.
      assert ((register_tags_loop py_format (config_plugins_tags_autoregister b)
                 [command] (tg, tags_list (tags_after tags final))).1.1 = tg)
        as ->; [| by destruct self as [b0 l []]].
      rewrite register_tags_loop_cons.
      assert (tags_list (tags_after tags final) = final
              ∨ tags_list (tags_after tags final) = tags_list tags) as [-> | ->].
      { destruct tags as [| s | [| item items]]; simpl; auto. }
      * pose proof (register_tags_step_again _ _ _ _ _ _ _ Hstep) as Hagain.
        destruct (register_tags_step py_format (config_plugins_tags_autoregister b)
                    (tg, final) command) as [st' [[] |]]; done.
      * rewrite (register_tags_step_settled _ _ _ _ _ _ _ tg Hstep (covers_refl tg)).
        by destruct r as [[] |].
  - simpl. by rewrite register_tags_unfold, Hbot.
Qed.

Lemma store_tagsets_exact command base tg :
  stored tg command ⊆ tagsets_of base →
  stored (store_tagsets command base tg) command = tagsets_of base.
Proof.
  intros Hsub. unfold store_tagsets.
  destruct (decide (stored tg command ⊂ tagsets_of base)) as [Hstrict | Hnot].
  - rewrite stored_set_eq. by apply subseteq_union_1_L.
  - apply (anti_symm (⊆)); [done |].
    destruct (decide (tagsets_of base ⊆ stored tg command)) as [| Hno]; [done |].
    destruct Hnot. by split.
Qed.

Lemma tagsets_of_mono base extra : tagsets_of base ⊆ tagsets_of (base ++ extra).
Proof. rewrite tagsets_of_app. apply union_subseteq_l. Qed.

(** The loop with auto-registration on and a [tags] list that is not empty:
    when the template can be filled for every name, the loop ends normally,
    the list has grown by the synthesized tag of every name, in order, and a
    name whose stored tag-sets were among those of the list holds, at the
    end, all the tag-sets the list had after its own round. *)
Lemma register_tags_loop_auto auto :
  cfg_truthy auto = true →
  ∀ command_names tg tags,
    py_list_truthy tags = true →
    (∀ command, command ∈ command_names →
                is_Some (synthesize py_format auto command)) →
    ∃ tg' ts,
      register_tags_loop py_format auto command_names (tg, tags)
      = ((tg', tags ++ map Tag ts), Returned tt)
      ∧ Forall2 (λ command t, synthesize py_format auto command = Some t)
          command_names ts
      ∧ ∀ j command,
          command_names !! j = Some command →
          stored tg command ⊆ tagsets_of tags →
          tagsets_of (tags ++ map Tag (take (S j) ts)) ⊆ stored tg' command.
Proof.
  intros Hauto. induction command_names as [| c0 rest IH]; intros tg tags Htags Hfmt.
  - exists tg, []. simpl. rewrite app_nil_r. repeat split; [constructor | done].
  - destruct (Hfmt c0) as [t0 Ht0]; [by left |].
    set (tags1 := tags ++ [Tag t0]).
    set (tg1 := store_tagsets c0 tags1 (ensure_key c0 tg)).
    assert (register_tags_step py_format auto (tg, tags) c0
            = ((tg1, tags1), Returned tt)) as Hstep.
    { rewrite register_tags_step_unfold, Hauto, Ht0, Htags. done. }
    destruct (IH tg1 tags1) as (tg' & ts & Hloop & Hts & Hstored).
    { unfold tags1. by destruct tags. }
    { intros command Hin. apply Hfmt. by right. }
    exists tg', (t0 :: ts).
    rewrite register_tags_loop_cons, Hstep, Hloop.
    unfold tags1. rewrite <- app_assoc. split; [done |].
    split; [by constructor |].
    assert (stored tg c0 ⊆ tagsets_of tags → stored tg1 c0 = tagsets_of tags1)
      as Hexact.
    { intros Hsub. unfold tg1. apply store_tagsets_exact.
      rewrite stored_ensure_key. etrans; [done | apply tagsets_of_mono]. }
    intros [| j] command Hj Hsub; simpl in Hj.
    + injection Hj as <-. simpl.
      change (tagsets_of tags1 ⊆ stored tg' c0).
      rewrite <- (Hexact Hsub).
      apply (register_tags_loop_covers _ _ _ _ _ _ _ Hloop c0).
    + change (tags ++ map Tag (take (S (S j)) (t0 :: ts)))
        with (tags ++ [Tag t0] ++ map Tag (take (S j) ts)).
      rewrite app_assoc. fold tags1. apply (Hstored j command Hj).
      destruct (decide (c0 = command)) as [<- | Hne].
      * by rewrite (Hexact Hsub).
      * unfold tg1. rewrite stored_store_tagsets_ne, stored_ensure_key by done.
        etrans; [done | apply tagsets_of_mono].
Qed.

(** [register_tags] with auto-registration on and explicit tags. *)
Lemma register_tags_auto self command_names tags b :
  tr_bot self = Some b →
  cfg_truthy (config_plugins_tags_autoregister b) = true →
  py_list_truthy (tags_list tags) = true →
  (∀ command, command ∈ command_names →
     is_Some (synthesize py_format (config_plugins_tags_autoregister b) command)) →
  ∃ ts,
    (register_tags py_format self command_names tags).2 = Returned tt
    ∧ (register_tags py_format self command_names tags).1.2
      = tags_after tags (tags_list tags ++ map Tag ts)
    ∧ Forall2 (λ command t,
                 synthesize py_format (config_plugins_tags_autoregister b) command
                 = Some t)
        command_names ts
    ∧ ∀ j command,
        command_names !! j = Some command →
        stored (commands_tagged (tr_current self)) command = ∅ →
        tagsets_of (tags_list tags ++ map Tag (take (S j) ts))
        ⊆ stored
            (commands_tagged
               (tr_current (register_tags py_format self command_names tags).1.1))
            command.
Proof.
  intros Hbot Hauto Htags Hfmt.
  destruct (register_tags_loop_auto _ Hauto command_names
              (commands_tagged (tr_current self)) (tags_list tags) Htags Hfmt)
    as (tg' & ts & Hloop & Hts & Hstored).
  exists ts. rewrite register_tags_unfold, Hbot. simpl.
  rewrite Htags, Hloop. simpl.
  repeat split; [done |].
  intros j command Hj Hempty. apply (Hstored j command Hj).
  rewrite Hempty. apply empty_subseteq.
Qed.

End TrackerProperties.

(** C1: a second call of [register_tags] with the same names and the same
    tags leaves the tracker as the first call left it, and so every name with
    the collection of tag-sets it had after one call; for one name this also
    holds when the second call is given the very list the first call worked
    on.  No call takes a tag-set away from the collection of a name. *)
Theorem register_tags_idempotent_monotonic :
  ∀ (py_format : string → string → option string) (self : tracker)
    (tags : tags_arg),
    (∀ command_names,
        register_tags py_format
          (register_tags py_format self command_names tags).1.1 command_names tags
        = register_tags py_format self command_names tags)
    ∧ (∀ command,
        (register_tags py_format
           (register_tags py_format self [command] tags).1.1 [command]
           (register_tags py_format self [command] tags).1.2).1.1
        = (register_tags py_format self [command] tags).1.1)
    ∧ (∀ command_names name,
        stored (commands_tagged (tr_current self)) name
        ⊆ stored
            (commands_tagged
               (tr_current (register_tags py_format self command_names tags).1.1))
            name).
Proof.
  intros py_format self tags. split; [| split].
  - intros command_names. apply register_tags_twice.
  - intros command. apply register_tags_again.
  - intros command_names name.
    apply (register_tags_covers py_format self command_names tags name).
Qed.

(** C2, as the code has it: with explicit tags and auto-registration on, when
    the template can be filled for every name, the call returns, and a name
    of the call that had no tag-set stored holds afterwards every supplied
    tag-set as it was supplied, and the synthesized tag as a tag-set of its
    own (a singleton); the synthesized tag is not put into the supplied
    tag-sets. *)
Theorem register_tags_synthesized_tagset :
  ∀ (py_format : string → string → option string) (self : tracker)
    (command_names : list string) (tags : tags_arg) (b : Bot),
    tr_bot self = Some b →
    cfg_truthy (config_plugins_tags_autoregister b) = true →
    py_list_truthy (tags_list tags) = true →
    (∀ command, command ∈ command_names →
       is_Some (synthesize py_format (config_plugins_tags_autoregister b) command)) →
    (register_tags py_format self command_names tags).2 = Returned tt
    ∧ ∀ command,
        command ∈ command_names →
        stored (commands_tagged (tr_current self)) command = ∅ →
        ∃ t,
          synthesize py_format (config_plugins_tags_autoregister b) command = Some t
          ∧ ({[ t ]} : tagset)
            ∈ stored
                (commands_tagged
                   (tr_current (register_tags py_format self command_names tags).1.1))
                command
          ∧ ∀ item,
              item ∈ tags_list tags →
              tagset_of_item item
              ∈ stored
                  (commands_tagged
                     (tr_current
                        (register_tags py_format self command_names tags).1.1))
                  command.
Proof.
  intros py_format self command_names tags b Hbot Hauto Htags Hfmt.
  destruct (register_tags_auto py_format self command_names tags b
              Hbot Hauto Htags Hfmt) as (ts & Hret & _ & Hts & Hstored).
  split; [done |].
  intros command Hin Hempty.
  apply list_elem_of_lookup in Hin as [j Hj].
  destruct (Forall2_lookup_l _ _ _ _ _ Hts Hj) as (t & Htj & Ht).
  exists t. split; [done |].
  pose proof (Hstored j command Hj Hempty) as Hsub.
  split.
  - apply Hsub. unfold tagsets_of. apply elem_of_list_to_set.
    apply (list_elem_of_fmap_2 tagset_of_item _ (Tag t)).
    apply elem_of_app. right.
    apply (list_elem_of_fmap_2 Tag). apply list_elem_of_lookup. exists j.
    apply lookup_take_Some. split; [done | lia].
  - intros item Hitem. apply Hsub. unfold tagsets_of. apply elem_of_list_to_set.
    apply list_elem_of_fmap_2. apply elem_of_app. by left.
Qed.

Lemma register_tags_synthesized_tagset_witness :
  (register_tags format_field fresh_tracker ["c"] (TagsList [Tag "a"])).2
  = Returned tt
  ∧ ∀ command,
      command ∈ ["c"] →
      stored (commands_tagged (tr_current fresh_tracker)) command = ∅ →
      ∃ t,
        synthesize format_field (config_plugins_tags_autoregister default_bot) command
        = Some t
        ∧ ({[ t ]} : tagset)
          ∈ stored
              (commands_tagged
                 (tr_current
                    (register_tags format_field fresh_tracker ["c"]
                       (TagsList [Tag "a"])).1.1))
              command
        ∧ ∀ item,
            item ∈ tags_list (TagsList [Tag "a"]) →
            tagset_of_item item
            ∈ stored
                (commands_tagged
                   (tr_current
                      (register_tags format_field fresh_tracker ["c"]
                         (TagsList [Tag "a"])).1.1))
                command.
Proof.
  apply (register_tags_synthesized_tagset format_field fresh_tracker ["c"]
           (TagsList [Tag "a"]) default_bot);
    [reflexivity | reflexivity | reflexivity |].
  intros command _. vm_compute. eauto.
Defined.

(** C2 as the design document words it fails: after
    [register_tags(["c"], ["a"])] on a fresh tracker with the default
    configuration, the tag-set {a} is stored for "c", and the synthesized tag
    "execute-c" is not in it. *)
Lemma register_tags_supplied_tagset_lacks_synthesized :
  synthesize format_field (config_plugins_tags_autoregister default_bot) "c"
  = Some "execute-c"
  ∧ ({[ "a" ]} : tagset)
    ∈ stored
        (commands_tagged
           (tr_current
              (register_tags format_field fresh_tracker ["c"]
                 (TagsList [Tag "a"])).1.1))
        "c"
  ∧ "execute-c" ∉ ({[ "a" ]} : tagset).
Proof.
  split; [reflexivity |].
  split; apply (bool_decide_unpack _); vm_compute; exact I.
Qed.

(** C10, as the code has it: with auto-registration on, a round of the loop
    on a [tags] list that is not empty leaves the list longer by the
    synthesized tag of its name; after the call the caller's list holds the
    synthesized tag of every name, in order; and a later name of the call
    that had no tag-set stored holds the synthesized tag of every earlier
    name as a singleton tag-set. *)
Theorem register_tags_extends_supplied_list :
  ∀ (py_format : string → string → option string) (self : tracker)
    (command_names : list string) (items : list tag_item) (b : Bot),
    tr_bot self = Some b →
    cfg_truthy (config_plugins_tags_autoregister b) = true →
    py_list_truthy items = true →
    (∀ command, command ∈ command_names →
       is_Some (synthesize py_format (config_plugins_tags_autoregister b) command)) →
    (∀ tg tags command t,
        py_list_truthy tags = true →
        synthesize py_format (config_plugins_tags_autoregister b) command = Some t →
        (register_tags_step py_format (config_plugins_tags_autoregister b)
           (tg, tags) command).1.2
        = tags ++ [Tag t])
    ∧ ∃ ts,
        Forall2 (λ command t,
                   synthesize py_format (config_plugins_tags_autoregister b) command
                   = Some t)
          command_names ts
        ∧ (register_tags py_format self command_names (TagsList items)).1.2
          = TagsList (items ++ map Tag ts)
        ∧ ∀ i j earlier later t,
            i < j →
            command_names !! i = Some earlier →
            command_names !! j = Some later →
            synthesize py_format (config_plugins_tags_autoregister b) earlier
            = Some t →
            stored (commands_tagged (tr_current self)) later = ∅ →
            ({[ t ]} : tagset)
            ∈ stored
                (commands_tagged
                   (tr_current
                      (register_tags py_format self command_names
                         (TagsList items)).1.1))
                later.
Proof.
  intros py_format self command_names items b Hbot Hauto Hitems Hfmt. split.
  { intros tg tags command t Htags Ht.
    rewrite register_tags_step_unfold, Hauto, Ht, Htags. done. }
  destruct (register_tags_auto py_format self command_names (TagsList items) b
              Hbot Hauto Hitems Hfmt) as (ts & _ & Hlist & Hts & Hstored).
  exists ts. split; [done |]. split.
  { rewrite Hlist. simpl. by destruct items. }
  intros i j earlier later t Hij Hi Hj Ht Hempty.
  destruct (Forall2_lookup_l _ _ _ _ _ Hts Hi) as (t' & Hti & Ht').
  assert (t' = t) as -> by congruence.
  apply (Hstored j later Hj Hempty).
  unfold tagsets_of. apply elem_of_list_to_set.
  apply (list_elem_of_fmap_2 tagset_of_item _ (Tag t)).
  apply elem_of_app. right.
  apply (list_elem_of_fmap_2 Tag). apply list_elem_of_lookup. exists i.
  apply lookup_take_Some. split; [done | lia].
Qed.

Lemma register_tags_extends_supplied_list_witness :
  (register_tags format_field fresh_tracker ["c1"; "c2"] (TagsList [Tag "a"])).1.2
  = TagsList [Tag "a"; Tag "execute-c1"; Tag "execute-c2"]
  ∧ ({[ "execute-c1" ]} : tagset)
    ∈ stored
        (commands_tagged
           (tr_current
              (register_tags format_field fresh_tracker ["c1"; "c2"]
                 (TagsList [Tag "a"])).1.1))
        "c2".
Proof.
  destruct (register_tags_extends_supplied_list format_field fresh_tracker
              ["c1"; "c2"] [Tag "a"] default_bot)
    as (_ & ts & Hts & Hlist & Hlater);
    [reflexivity | reflexivity | reflexivity | |].
  - intros command _. vm_compute. eauto.
  - split; [reflexivity |].
    apply (Hlater 0 1 "c1" "c2" "execute-c1");
      [lia | reflexivity | reflexivity | reflexivity | reflexivity].
Defined.

(** C10 without the condition on the later name fails: once
    [register_tags(["c2"], ["z"])] has stored tag-sets for "c2", the call
    [register_tags(["c1", "c2"], ["a"])] computes for "c2" a collection that
    is no superset of the stored one and stores nothing, so "c2" does not
    get the synthesized tag of "c1". *)
Lemma register_tags_later_name_keeps_its_tagsets :
  ({[ "execute-c1" ]} : tagset)
  ∉ stored
      (commands_tagged
         (tr_current
            (register_tags format_field
               (register_tags format_field fresh_tracker ["c2"]
                  (TagsList [Tag "z"])).1.1
               ["c1"; "c2"] (TagsList [Tag "a"])).1.1))
      "c2".
Proof. apply (bool_decide_unpack _). vm_compute. exact I. Qed.

(** ** Plugin loader *)

(** C5: an entry point without parameters is called once, with no argument;
    one whose only parameter is named "bot" is called once, with the host
    instance; any other is first called with the handler registry and the
    host instance, and called again, with the handler registry alone, exactly
    when that first call raises a [TypeError]. *)
Theorem entry_point_signature_resolution :
  ∀ (the_function : pyfunction) (w : world),
    (fn_params the_function = [] →
     call_entry_point the_function w
     = (((fn_call the_function [] w).1, [Invoke (fn_id the_function) []]),
        match (fn_call the_function [] w).2 with
        | Returned _ => Returned (VList [])
        | Raised e => Raised e
        end))
    ∧ (fn_params the_function = ["bot"] →
       call_entry_point the_function w
       = (((fn_call the_function [ArgBot] w).1,
           [Invoke (fn_id the_function) [ArgBot]]),
          match (fn_call the_function [ArgBot] w).2 with
          | Returned _ => Returned (VList [])
          | Raised e => Raised e
          end))
    ∧ (fn_params the_function ≠ [] →
       fn_params the_function ≠ ["bot"] →
       (∀ e, (fn_call the_function [ArgHandlers; ArgBot] w).2 = Raised e →
             is_TypeError e = false) →
       call_entry_point the_function w
       = (((fn_call the_function [ArgHandlers; ArgBot] w).1,
           [Invoke (fn_id the_function) [ArgHandlers; ArgBot]]),
          (fn_call the_function [ArgHandlers; ArgBot] w).2))
    ∧ (fn_params the_function ≠ [] →
       fn_params the_function ≠ ["bot"] →
       (fn_call the_function [ArgHandlers; ArgBot] w).2 = Raised TypeError →
       call_entry_point the_function w
       = (((fn_call the_function [ArgHandlers]
              (fn_call the_function [ArgHandlers; ArgBot] w).1).1,
           [Invoke (fn_id the_function) [ArgHandlers; ArgBot];
            Invoke (fn_id the_function) [ArgHandlers]]),
          (fn_call the_function [ArgHandlers]
             (fn_call the_function [ArgHandlers; ArgBot] w).1).2)).
Proof.
  intros the_function w. unfold call_entry_point.
  split; [| split; [| split]].
  - intros ->. simpl. by destruct (fn_call the_function [] w).
  - intros ->. simpl. by destruct (fn_call the_function [ArgBot] w).
  - intros Hnone Hbot Hother.
    assert (Nat.eqb (length (fn_params the_function)) 0 = false) as ->.
    { destruct (fn_params the_function); done. }
    assert (Nat.eqb (length (fn_params the_function)) 1
            && String.eqb (default "" (head (fn_params the_function))) "bot"
            = false) as ->.
    { destruct (fn_params the_function) as [| p [| p' ps]]; simpl; try done.
      destruct (String.eqb p "bot") eqn:Hp; [| done].
      apply String.eqb_eq in Hp as ->. done. }
    destruct (fn_call the_function [ArgHandlers; ArgBot] w) as [w1 [v | e]];
      simpl in *; [done |].
    by rewrite (Hother e eq_refl).
  - intros Hnone Hbot Htype.
    assert (Nat.eqb (length (fn_params the_function)) 0 = false) as ->.
    { destruct (fn_params the_function); done. }
    assert (Nat.eqb (length (fn_params the_function)) 1
            && String.eqb (default "" (head (fn_params the_function))) "bot"
            = false) as ->.
    { destruct (fn_params the_function) as [| p [| p' ps]]; simpl; try done.
      destruct (String.eqb p "bot") eqn:Hp; [| done].
      apply String.eqb_eq in Hp as ->. done. }
    destruct (fn_call the_function [ArgHandlers; ArgBot] w) as [w1 r1];
      simpl in *. subst r1. simpl.
    by destruct (fn_call the_function [ArgHandlers] w1).
Qed.

Lemma entry_point_signature_resolution_witness :
  (call_entry_point broken_initialise fresh_world).1.2
  = [Invoke "plugins.broken._initialise" []]
  ∧ (call_entry_point modern_initialise fresh_world).1.2
    = [Invoke "plugins.modern._initialise" [ArgBot]]
  ∧ (call_entry_point quiet_initialise fresh_world).1.2
    = [Invoke "plugins.quiet._initialise" [ArgHandlers; ArgBot]]
  ∧ (call_entry_point ancient_initialise fresh_world).1.2
    = [Invoke "plugins.ancient._initialise" [ArgHandlers; ArgBot];
       Invoke "plugins.ancient._initialise" [ArgHandlers]].
Proof.
  split; [| split; [| split]].
  - destruct (entry_point_signature_resolution broken_initialise fresh_world)
      as (Hzero & _).
    rewrite Hzero; reflexivity.
  - destruct (entry_point_signature_resolution modern_initialise fresh_world)
      as (_ & Hbot & _).
    rewrite Hbot; reflexivity.
  - destruct (entry_point_signature_resolution quiet_initialise fresh_world)
      as (_ & _ & Hlegacy & _).
    rewrite Hlegacy; [reflexivity | discriminate | discriminate |].
    intros e. simpl. discriminate.
  - destruct (entry_point_signature_resolution ancient_initialise fresh_world)
      as (_ & _ & _ & Hancient).
    rewrite Hancient; [reflexivity | discriminate | discriminate | reflexivity].
Defined.

Lemma init_loop_cons member rest st :
  init_loop (member :: rest) st
  = match init_step st member with
    | (st', Returned _) => init_loop rest st'
    | (st', Raised e) => (st', Raised e)
    end.
Proof. reflexivity. Qed.

Lemma init_loop_app before after : ∀ st,
  init_loop (before ++ after) st
  = match init_loop before st with
    | (st', Returned _) => init_loop after st'
    | (st', Raised e) => (st', Raised e)
    end.
Proof.
  induction before as [| member before IH]; intros st; [done |].
  rewrite <- app_comm_cons, !init_loop_cons.
  destruct (init_step st member) as [st' [[] | e]]; [apply IH | done].
Qed.

Lemma call_entry_point_events the_function w :
  Forall (λ ev, is_dispatcher_event ev = false)
    (call_entry_point the_function w).1.2.
Proof.
  unfold call_entry_point.
  repeat (case_match; simpl; simplify_eq); repeat constructor.
Qed.

Lemma init_step_events st member :
  Forall (λ ev, is_dispatcher_event ev = false) (init_events st) →
  Forall (λ ev, is_dispatcher_event ev = false) (init_events (init_step st member).1).
Proof.
  intros Hst. unfold init_step. destruct member as [function_name the_function].
  destruct (is_entry_point function_name); [| by case_match].
  pose proof (call_entry_point_events the_function (init_world st)) as Hcall.
  destruct (call_entry_point the_function (init_world st)) as [[w1 evs] [v | e]];
    simpl in *; by apply Forall_app.
Qed.

Lemma init_loop_events public_functions : ∀ st,
  Forall (λ ev, is_dispatcher_event ev = false) (init_events st) →
  Forall (λ ev, is_dispatcher_event ev = false)
    (init_events (init_loop public_functions st).1).
Proof.
  induction public_functions as [| member rest IH]; intros st Hst; [done |].
  rewrite init_loop_cons.
  pose proof (init_step_events st member Hst) as Hstep.
  destruct (init_step st member) as [st' [[] | e]]; simpl in *; [by apply IH | done].
Qed.

Lemma load_forgets_scope py_format import_module getmembers module_path
    module_name sc w :
  load py_format import_module getmembers module_path module_name
    (set_tracking w (set_current (tracking w) sc))
  = load py_format import_module getmembers module_path module_name w.
Proof. by destruct w as [[b l cur] hs]. Qed.

(** C3, as the code has it: when the call of the entry point of a plugin
    raises an instance of [Exception] (what [load] catches), [load] returns
    with the world as that call left it and with no dispatcher call among its
    events (no [command.register], no flush of the tags by [tracking.end]);
    the scope of the failed plugin is never committed, for the next [load]
    starts from a new scope and runs the same way whatever the failed plugin
    left in the old one; and the loop of [load_user_plugins] goes on with the
    remaining plugins. *)
Theorem failed_entry_point_skips_plugin :
  ∀ (py_format : string → string → option string)
    (import_module : string → world → world * outcome unit)
    (getmembers : string → world → outcome (list (string * pyfunction)))
    (module_path : string) (module_name : option string) (w w1 w2 : world)
    (before after : list (string * pyfunction)) (name : string)
    (the_function : pyfunction) (st1 : init_state) (evs : list event) (e : exn),
    import_module module_path
      (set_tracking w
         (start (tracking w)
            (default (PyStr.last_component module_path) module_name, module_path)))
    = (w1, Returned tt) →
    getmembers module_path w1 = Returned (before ++ (name, the_function) :: after) →
    is_entry_point name = true →
    init_loop before (InitState w1 [] None []) = (st1, Returned tt) →
    call_entry_point the_function (init_world st1) = ((w2, evs), Raised e) →
    is_Exception e = true →
    load py_format import_module getmembers module_path module_name w
    = ((w2, init_events st1 ++ evs ++ [LogException "init" module_path]),
       Returned tt)
    ∧ Forall (λ ev, is_dispatcher_event ev = false)
        (load py_format import_module getmembers module_path module_name w).1.2
    ∧ (∀ sc next_path next_name,
          load py_format import_module getmembers next_path next_name
            (set_tracking w2 (set_current (tracking w2) sc))
          = load py_format import_module getmembers next_path next_name w2)
    ∧ (∀ module rest,
          module_path = "plugins." +:+ module →
          module_name = None →
          load_modules py_format import_module getmembers (module :: rest) w
          = (((load_modules py_format import_module getmembers rest w2).1.1,
              (init_events st1 ++ evs ++ [LogException "init" module_path])
              ++ (load_modules py_format import_module getmembers rest w2).1.2),
             (load_modules py_format import_module getmembers rest w2).2)).
Proof.
  intros py_format import_module getmembers module_path module_name w w1 w2
    before after name the_function st1 evs e Himport Hmembers Hentry Hbefore
    Hcall Hexc.
  assert (load py_format import_module getmembers module_path module_name w
          = ((w2, init_events st1 ++ evs ++ [LogException "init" module_path]),
             Returned tt)) as Hload.
  { unfold load. rewrite Himport, Hmembers. unfold pass1.
    rewrite init_loop_app, Hbefore, init_loop_cons.
    unfold init_step. rewrite Hentry, Hcall. simpl. rewrite Hexc.
    by rewrite <- app_assoc. }
  split; [done |]. split; [| split].
  - rewrite Hload. simpl.
    pose proof (init_loop_events before (InitState w1 [] None []) (Forall_nil_2 _))
      as Hloop.
    rewrite Hbefore in Hloop.
    pose proof (call_entry_point_events the_function (init_world st1)) as Hevs.
    rewrite Hcall in Hevs. simpl in *.
    apply Forall_app. split; [done |].
    apply Forall_app. split; [done |].
    by repeat constructor.
  - intros sc next_path next_name. apply load_forgets_scope.
  - intros module rest -> ->. simpl. rewrite Hload.
    by destruct (load_modules py_format import_module getmembers rest w2)
      as [[w3 evs'] r].
Qed.

Lemma failed_entry_point_skips_plugin_witness :
  load_modules format_field example_import example_getmembers ["bad"; "echo"]
    fresh_world
  = (((load_modules format_field example_import example_getmembers ["echo"]
         (register_user_command format_field (Names ["hello"]) TagsNone
            (set_tracking fresh_world
               (start fresh_tracker ("bad", "plugins.bad")))).1.1).1.1,
      ([] ++ [Invoke "plugins.bad._initialise" [ArgBot]]
       ++ [LogException "init" "plugins.bad"])
      ++ (load_modules format_field example_import example_getmembers ["echo"]
            (register_user_command format_field (Names ["hello"]) TagsNone
               (set_tracking fresh_world
                  (start fresh_tracker ("bad", "plugins.bad")))).1.1).1.2),
     (load_modules format_field example_import example_getmembers ["echo"]
        (register_user_command format_field (Names ["hello"]) TagsNone
           (set_tracking fresh_world
              (start fresh_tracker ("bad", "plugins.bad")))).1.1).2).
Proof.
  destruct (failed_entry_point_skips_plugin format_field example_import
              example_getmembers "plugins.bad" None fresh_world
              (set_tracking fresh_world (start fresh_tracker ("bad", "plugins.bad")))
              (register_user_command format_field (Names ["hello"]) TagsNone
                 (set_tracking fresh_world
                    (start fresh_tracker ("bad", "plugins.bad")))).1.1
              [] [("hello", command_function "plugins.bad.hello")]
              "_initialise" bad_initialise
              (InitState
                 (set_tracking fresh_world
                    (start fresh_tracker ("bad", "plugins.bad")))
                 [] None [])
              [Invoke "plugins.bad._initialise" [ArgBot]]
              (OtherException "RuntimeError"))
    as (_ & _ & _ & Hnext);
    [reflexivity | reflexivity | reflexivity | reflexivity | reflexivity
    | reflexivity |].
  apply (Hnext "bad" ["echo"]); reflexivity.
Defined.

(** C3 as the claim words it, for every exception, fails: an entry point
    that ends in [sys.exit()] raises [SystemExit], which is no instance of
    [Exception]; it leaves [load] and the loop of [load_user_plugins], and the
    plugin "echo" that follows is never loaded. *)
Lemma exiting_entry_point_ends_the_run :
  load_modules format_field example_import example_getmembers ["exiting"; "echo"]
    fresh_world
  = ((set_tracking fresh_world (start fresh_tracker ("exiting", "plugins.exiting")),
      [Invoke "plugins.exiting._initialise" []]),
     Raised (ExitException "SystemExit"))
  ∧ (call_entry_point exiting_initialise
       (set_tracking fresh_world
          (start fresh_tracker ("exiting", "plugins.exiting")))).2
    = Raised (ExitException "SystemExit").
Proof. split; reflexivity. Qed.

Lemma elem_of_list_set name l : name ∈ list_set l ↔ name ∈ l.
Proof. unfold list_set. by rewrite elem_of_elements, elem_of_list_to_set. Qed.

Lemma register_tags_nil py_format self tags :
  (register_tags py_format self [] tags).1.1 = self.
Proof.
  rewrite register_tags_unfold. destruct (tr_bot self); [| done].
  simpl. case_match; [done |]. simpl. apply set_tagged_same.
Qed.

(** [register_user_command([])]: the list of user commands goes through
    [list(set(...))] and nothing else changes. *)
Lemma register_user_command_nil py_format w :
  tracking (register_user_command py_format (Names []) TagsNone w).1.1
  = set_current (tracking w) (extend_commands user [] (tr_current (tracking w))).
Proof.
  unfold register_user_command, register_command. simpl.
  pose proof (register_tags_nil py_format
                (set_current (tracking w)
                   (extend_commands user [] (tr_current (tracking w))))
                TagsNone) as Hnil.
  by destruct (register_tags _ _ _ _) as [[t tags'] r].
Qed.

(** C4: an entry point that returns an empty list leaves
    [available_commands] at the empty list, and the handling of that value at
    the end of pass 1 registers no user command: the user commands of the
    scope are the same names as before (their list went through
    [list(set(...))]), the admin commands and the tagged commands are
    untouched, whatever candidate commands the plugin exports. *)
Theorem empty_list_registers_no_user_command :
  ∀ (py_format : string → string → option string)
    (public_functions : list (string * pyfunction)) (w : world) (st : init_state),
    (∀ st0 name the_function w1 evs,
        is_entry_point name = true →
        call_entry_point the_function (init_world st0)
        = ((w1, evs), Returned (VList [])) →
        available_commands (init_step st0 (name, the_function)).1 = Some [])
    ∧ (init_loop public_functions (InitState w [] None []) = (st, Returned tt) →
       available_commands st = Some [] →
       commands_user
         (tr_current (tracking (init_world (pass1 py_format public_functions w).1)))
       = list_set (commands_user (tr_current (tracking (init_world st))))
       ∧ (∀ name,
            name ∈ commands_user
                     (tr_current
                        (tracking (init_world (pass1 py_format public_functions w).1)))
            ↔ name ∈ commands_user (tr_current (tracking (init_world st))))
       ∧ commands_admin
           (tr_current (tracking (init_world (pass1 py_format public_functions w).1)))
         = commands_admin (tr_current (tracking (init_world st)))
       ∧ commands_tagged
           (tr_current (tracking (init_world (pass1 py_format public_functions w).1)))
         = commands_tagged (tr_current (tracking (init_world st)))
       ∧ candidate_commands (pass1 py_format public_functions w).1
         = candidate_commands st).
Proof.
  intros py_format public_functions w st. split.
  { intros st0 name the_function w1 evs Hentry Hcall.
    unfold init_step. by rewrite Hentry, Hcall. }
  intros Hloop Havailable.
  unfold pass1. rewrite Hloop, Havailable. unfold register_available.
  pose proof (register_user_command_nil py_format (init_world st)) as Hnil.
  destruct (register_user_command py_format (Names []) TagsNone (init_world st))
    as [[w1 tags'] r].
  simpl in *. rewrite Hnil. simpl. rewrite app_nil_r.
  repeat split; try done.
  - apply elem_of_list_set.
  - apply elem_of_list_set.
Qed.

Lemma empty_list_registers_no_user_command_witness :
  commands_user
    (tr_current
       (tracking
          (init_world
             (pass1 format_field
                [("_initialise", quiet_initialise);
                 ("shout", command_function "plugins.quiet.shout")]
                fresh_world).1)))
  = list_set (commands_user (tr_current (tracking fresh_world))).
Proof.
  destruct (empty_list_registers_no_user_command format_field
              [("_initialise", quiet_initialise);
               ("shout", command_function "plugins.quiet.shout")]
              fresh_world
              (InitState fresh_world
                 [Invoke "plugins.quiet._initialise" [ArgHandlers; ArgBot]]
                 (Some [])
                 [("shout", command_function "plugins.quiet.shout")]))
    as (_ & Hpass1).
  destruct Hpass1 as (Huser & _); [reflexivity | reflexivity |].
  exact Huser.
Defined.

(** ** Handlers *)






(** * Further properties *)

(** ** Strings *)

Lemma string_app_cons (a : ascii) (p s : string) :
  String a p +:+ s = String a (p +:+ s).
Proof. reflexivity. Qed.

Lemma string_length_app (p s : string) :
  String.length (p +:+ s) = String.length p + String.length s.
Proof. induction p as [| a p IH]; simpl; [done | by rewrite IH]. Qed.

Lemma substring_all (s : string) : String.substring 0 (String.length s) s = s.
Proof. induction s as [| a s IH]; simpl; [done | by rewrite IH]. Qed.

Lemma substring_app_r (p s : string) :
  String.substring (String.length p) (String.length s) (p +:+ s) = s.
Proof. induction p as [| a p IH]; simpl; [apply substring_all | done]. Qed.

Lemma substring_app_l (p s : string) :
  String.substring 0 (String.length p) (p +:+ s) = p.
Proof. induction p as [| a p IH]; simpl; [by destruct s | by rewrite IH]. Qed.

Lemma substring_split (s : string) : ∀ i,
  i ≤ String.length s →
  s = String.substring 0 i s +:+ String.substring i (String.length s - i) s.
Proof.
  induction s as [| a s IH]; intros i Hi; simpl in *.
  - by destruct i.
  - destruct i as [| i]; simpl.
    + by rewrite substring_all.
    + rewrite string_app_cons. f_equal. apply IH. lia.
Qed.

(** [s.endswith(suffix)] holds exactly when [s] is some text followed by
    [suffix]. *)
Lemma endswith_spec (s suffix : string) :
  PyStr.endswith s suffix = true ↔ ∃ p, s = p +:+ suffix.
Proof.
  unfold PyStr.endswith. rewrite andb_true_iff, Nat.leb_le, String.eqb_eq. split.
  - intros [Hlen Hsub].
    exists (String.substring 0 (String.length s - String.length suffix) s).
    pose proof (substring_split s (String.length s - String.length suffix)) as Hs.
    replace (String.length s - (String.length s - String.length suffix))
      with (String.length suffix) in Hs by lia.
    rewrite Hsub in Hs. apply Hs. lia.
  - intros [p ->]. rewrite string_length_app. split; [lia |].
    replace (String.length p + String.length suffix - String.length suffix)
      with (String.length p) by lia.
    apply substring_app_r.
Qed.

Lemma startswith_spec (s p : string) :
  PyStr.startswith s p = true ↔ ∃ r, s = p +:+ r.
Proof.
  unfold PyStr.startswith. revert s.
  induction p as [| a p IH]; intros s; simpl.
  - destruct s; split; eauto.
  - destruct s as [| b s]; simpl.
    + split; [done | by intros [r ?]].
    + destruct (Ascii.ascii_dec a b) as [<- | Hne].
      * rewrite IH. split; intros [r Hr]; exists r.
        -- rewrite string_app_cons. congruence.
        -- rewrite string_app_cons in Hr. congruence.
      * split; [done |]. intros [r Hr].
        rewrite string_app_cons in Hr. congruence.
Qed.

Lemma string_app_nil (s : string) : "" +:+ s = s.
Proof. reflexivity. Qed.

(** ** Plugin selector *)

(** X1: The matching rule of the selector, spelled out: under the root
    ["plugins."], a fragment matches the name equal to it and the names that
    end with a dot followed by it ("abc" matches "abc" and "xyz.abc"), and no
    other name. *)
Theorem fragment_matches_name_or_dotted_suffix :
  ∀ (configured : string) (pool : list string) (found : string),
    found ∈ matches_of configured pool
    ↔ found ∈ pool
      ∧ (found = configured ∨ ∃ p, found = p +:+ "." +:+ configured).
Proof.
  intros configured pool found. rewrite elem_of_matches_of, endswith_spec.
  apply and_iff_compat_l. split.
  - intros [q Hq].
    do 7 (destruct q as [| ? q];
          [rewrite ?string_app_cons, ?string_app_nil in Hq; discriminate Hq |];
          rewrite ?string_app_cons in Hq; injection Hq as ? Hq).
    destruct q as [| ? q]; rewrite ?string_app_cons, ?string_app_nil in Hq.
    + injection Hq as Hq. by left.
    + injection Hq as ? Hq. right. by exists q.
  - intros [-> | [p ->]].
    + by exists "plugins".
    + by exists ("plugins." +:+ p).
Qed.

Lemma list_remove_permutation m pool :
  m ∈ pool → pool ≡ₚ m :: list_remove m pool.
Proof.
  induction pool as [| y pool IH]; simpl; [by intros ?%elem_of_nil |].
  destruct (String.eqb y m) eqn:Hy.
  - apply String.eqb_eq in Hy as ->. done.
  - intros [-> | Hin]%elem_of_cons; [by rewrite String.eqb_refl in Hy |].
    rewrite (IH Hin) at 1. apply Permutation_swap.
Qed.

Lemma select_step_permutation st configured :
  plugins_included (select_step st configured)
  ++ plugins_excluded (select_step st configured)
  ≡ₚ plugins_included st ++ plugins_excluded st.
Proof.
  unfold select_step.
  destruct (matches_of configured (plugins_excluded st)) as [| m [| m' ms]] eqn:Hm;
    simpl; [done | | done].
  assert (m ∈ plugins_excluded st) as Hin.
  { apply (elem_of_matches_of configured). rewrite Hm. by left. }
  rewrite <- app_assoc. simpl. by rewrite <- (list_remove_permutation m _ Hin).
Qed.

Lemma select_rounds_permutation fragments : ∀ st,
  plugins_included (fold_left select_step fragments st)
  ++ plugins_excluded (fold_left select_step fragments st)
  ≡ₚ plugins_included st ++ plugins_excluded st.
Proof.
  induction fragments as [| configured fragments IH]; intros st; simpl; [done |].
  rewrite IH. apply select_step_permutation.
Qed.

Lemma select_plugins_permutation all_plugins config_plugins :
  plugins_included (select_plugins all_plugins config_plugins)
  ++ plugins_excluded (select_plugins all_plugins config_plugins)
  ≡ₚ all_plugins.
Proof. unfold select_plugins. by rewrite select_rounds_permutation. Qed.

(** X2: The selector neither invents nor loses a plugin: the included plugins
    and those left in the pool are, together, the discovered plugins, each as
    often as it was discovered. *)
Theorem selector_partitions_discovered :
  ∀ (all_plugins config_plugins : list string),
    plugins_included (select_plugins all_plugins config_plugins)
    ++ plugins_excluded (select_plugins all_plugins config_plugins)
    ≡ₚ all_plugins.
Proof.
  intros all_plugins config_plugins. apply select_plugins_permutation.
Qed.

(** X3: No plugin is selected twice: when the discovered names are distinct, so
    are the names [get_configured_plugins] returns, whatever the
    configuration. *)
Theorem selector_includes_each_plugin_once :
  ∀ (all_plugins : list string) (config_plugins : option (list string)),
    NoDup all_plugins →
    NoDup (get_configured_plugins all_plugins config_plugins)
    ∧ get_configured_plugins all_plugins config_plugins ⊆ all_plugins.
Proof.
  intros all_plugins [fragments |] Hnodup; simpl; [| done].
  pose proof (select_plugins_permutation all_plugins fragments) as Hperm.
  split.
  - rewrite <- Hperm in Hnodup. by apply NoDup_app in Hnodup as (? & _ & _).
  - intros m Hm. rewrite <- Hperm. apply elem_of_app. by left.
Qed.

Lemma selector_includes_each_plugin_once_witness :
  NoDup (get_configured_plugins ["a.b"; "c.b"; "d"] (Some ["d"; "a.b"; "b"; "d"]))
  ∧ get_configured_plugins ["a.b"; "c.b"; "d"] (Some ["d"; "a.b"; "b"; "d"])
    ⊆ ["a.b"; "c.b"; "d"].
Proof.
  apply (selector_includes_each_plugin_once ["a.b"; "c.b"; "d"]
           (Some ["d"; "a.b"; "b"; "d"])).
  apply (bool_decide_unpack _). vm_compute. exact I.
Defined.

Lemma select_step_accounts st configured :
  length (plugins_included (select_step st configured))
  + length (plugin_name_ambiguous (select_step st configured))
  + length (plugin_name_not_found (select_step st configured))
  = S (length (plugins_included st) + length (plugin_name_ambiguous st)
       + length (plugin_name_not_found st)).
Proof.
  unfold select_step.
  destruct (matches_of configured (plugins_excluded st)) as [| m [| m' ms]];
    simpl; rewrite length_app; simpl; lia.
Qed.

(** X4: Every configured fragment has exactly one fate: it includes a plugin, or
    it is recorded as ambiguous, or as not found. *)
Theorem selector_accounts_for_every_fragment :
  ∀ (all_plugins config_plugins : list string),
    length (plugins_included (select_plugins all_plugins config_plugins))
    + length (plugin_name_ambiguous (select_plugins all_plugins config_plugins))
    + length (plugin_name_not_found (select_plugins all_plugins config_plugins))
    = length config_plugins.
Proof.
  intros all_plugins config_plugins. unfold select_plugins.
  assert (∀ st,
            length (plugins_included (fold_left select_step config_plugins st))
            + length (plugin_name_ambiguous (fold_left select_step config_plugins st))
            + length (plugin_name_not_found (fold_left select_step config_plugins st))
            = length config_plugins
              + (length (plugins_included st) + length (plugin_name_ambiguous st)
                 + length (plugin_name_not_found st))) as Hgen.
  { induction config_plugins as [| configured rest IH]; intros st; simpl; [done |].
    rewrite IH, select_step_accounts. lia. }
  rewrite Hgen. simpl. lia.
Qed.

Lemma select_rounds_origin all_plugins fragments : ∀ st,
  plugins_excluded st ⊆ all_plugins →
  ∀ m, m ∈ plugins_included (fold_left select_step fragments st) →
       m ∈ plugins_included st
       ∨ ∃ configured, configured ∈ fragments ∧ m ∈ matches_of configured all_plugins.
Proof.
  induction fragments as [| configured fragments IH]; intros st Hpool m; simpl.
  - by left.
  - intros Hm.
    assert (plugins_excluded (select_step st configured) ⊆ all_plugins) as Hpool'.
    { etrans; [apply select_step_pool | done]. }
    destruct (IH (select_step st configured) Hpool' m Hm)
      as [Hstep | (c & Hc & Hmatch)].
    + unfold select_step in Hstep.
      destruct (matches_of configured (plugins_excluded st))
        as [| m1 [| m' ms]] eqn:Hmatches; simpl in Hstep; [by left | | by left].
      apply elem_of_app in Hstep as [Hold | <-%list_elem_of_singleton]; [by left |].
      right. exists configured. split; [by left |].
      assert (m ∈ matches_of configured (plugins_excluded st)) as Hin
        by (rewrite Hmatches; by left).
      apply elem_of_matches_of in Hin as [Hin Hends].
      apply elem_of_matches_of. split; [by apply Hpool | done].
    + right. exists c. split; [by right | done].
Qed.

(** X5: A plugin is only included because a configured fragment matches it: each
    included name is a discovered name that some fragment of the
    configuration matches. *)
Theorem selector_includes_only_matches :
  ∀ (all_plugins config_plugins : list string) (m : string),
    m ∈ plugins_included (select_plugins all_plugins config_plugins) →
    ∃ configured,
      configured ∈ config_plugins ∧ m ∈ matches_of configured all_plugins.
Proof.
  intros all_plugins config_plugins m Hm. unfold select_plugins in Hm.
  apply (select_rounds_origin all_plugins) in Hm as [Hnil | Hmatch]; [| done |].
  - by apply elem_of_nil in Hnil.
  - done.
Qed.

Lemma selector_includes_only_matches_witness :
  ∃ configured,
    configured ∈ ["y"; "y"] ∧ "x.y" ∈ matches_of configured ["x.y"].
Proof.
  apply (selector_includes_only_matches ["x.y"] ["y"; "y"] "x.y").
  apply (bool_decide_unpack _). vm_compute. exact I.
Defined.

(** ** Module lister *)

Lemma scan_node_prefix p n :
  scan_node (Some p) n
  = if PyStr.startswith (node_name n) p then scan_node None n else [].
Proof.
  assert (fails_prefix (Some p) (node_name n)
          = negb (PyStr.startswith (node_name n) p)) as Hfails.
  { unfold fails_prefix. destruct (String.eqb p "") eqn:Hp; [| done].
    apply String.eqb_eq in Hp as ->. unfold PyStr.startswith.
    by destruct (node_name n). }
  destruct n as [name | name entries]; simpl in *; rewrite Hfails;
    destruct (PyStr.startswith name p); simpl; try done;
    by destruct (PyStr.startswith name "_" || PyStr.startswith name ".").
Qed.

(** X6: The prefix a package imposes on its sub-plugins only selects among the
    entries of the package directory itself: listing a directory under a
    required prefix is listing, without one, its entries whose name starts
    with the prefix. *)
Theorem lister_prefix_selects_entries :
  ∀ (entries : list node) (prefix : string),
    retrieve_all_plugins entries (Some prefix)
    = retrieve_all_plugins
        (List.filter (λ n, PyStr.startswith (node_name n) prefix) entries) None.
Proof.
  intros entries prefix.
  induction entries as [| n entries IH]; [done |].
  rewrite retrieve_all_plugins_cons, scan_node_prefix, IH. simpl.
  by destruct (PyStr.startswith (node_name n) prefix).
Qed.

(** X7: What the lister returns, entry by entry: a name is listed exactly when
    it comes from an entry that is not hidden and passes the prefix, and that
    entry is a file ending in ".py", listed without its extension, or a
    directory with an [__init__.py], listed under its own module name and
    with each name found below it. *)
Theorem lister_lists_exactly :
  ∀ (plugin_path : list node) (must_start_with : option string) (listed : string),
    listed ∈ retrieve_all_plugins plugin_path must_start_with
    ↔ ∃ n,
        n ∈ plugin_path
        ∧ PyStr.startswith (node_name n) "_" = false
        ∧ PyStr.startswith (node_name n) "." = false
        ∧ fails_prefix must_start_with (node_name n) = false
        ∧ match n with
          | File name =>
              PyStr.endswith name ".py" = true
              ∧ listed = PyStr.splitext_root name
          | Dir name entries =>
              has_init entries = true
              ∧ (listed = PyStr.splitext_root name
                 ∨ ∃ child,
                     child ∈ retrieve_all_plugins entries (Some name)
                     ∧ listed = PyStr.splitext_root name +:+ "." +:+ child)
          end.
Proof.
  intros plugin_path must_start_with listed. unfold retrieve_all_plugins at 1.
  rewrite list_elem_of_In, in_flat_map. split.
  - intros (n & Hn & Hlisted). exists n.
    apply list_elem_of_In in Hn, Hlisted. split; [done |].
    destruct n as [name | name entries]; simpl in *;
      destruct (PyStr.startswith name "_"); simpl in Hlisted;
      try (by apply elem_of_nil in Hlisted);
      destruct (PyStr.startswith name "."); simpl in Hlisted;
      try (by apply elem_of_nil in Hlisted);
      destruct (fails_prefix must_start_with name);
      try (by apply elem_of_nil in Hlisted).
    + destruct (PyStr.endswith name ".py"); [| by apply elem_of_nil in Hlisted].
      apply list_elem_of_singleton in Hlisted. done.
    + destruct (has_init entries); [| by apply elem_of_nil in Hlisted].
      repeat split; try done.
      apply elem_of_cons in Hlisted as [-> | Hchild]; [by left |].
      apply list_elem_of_fmap in Hchild as (child & -> & Hchild).
      right. by exists child.
  - intros (n & Hn & Hunder & Hdot & Hprefix & Hkind). exists n.
    rewrite <- !list_elem_of_In. split; [done |].
    destruct n as [name | name entries]; simpl in *;
      rewrite Hunder, Hdot, Hprefix; simpl.
    + destruct Hkind as [-> ->]. by left.
    + destruct Hkind as [-> [-> | (child & Hchild & ->)]]; [by left |].
      right. apply list_elem_of_fmap. by exists child.
Qed.

(** ** Registration tracker *)

Lemma register_tags_shape py_format self command_names tags :
  ∃ tg,
    (register_tags py_format self command_names tags).1.1
    = set_current self (set_tagged (tr_current self) tg).
Proof.
  rewrite register_tags_unfold.
  destruct (tr_bot self);
    [| exists (commands_tagged (tr_current self)); by rewrite set_tagged_same].
  simpl. case_match.
  - exists (commands_tagged (tr_current self)). by rewrite set_tagged_same.
  - by eexists.
Qed.


Lemma dict_keys_set {V} (k : string) (v : V) (d : dict V) :
  dict_keys (dict_set k v d)
  = if bool_decide (k ∈ dict_keys d) then dict_keys d else dict_keys d ++ [k].
Proof.
  induction d as [| [k' v'] d IH]; simpl; [done |].
  destruct (String.eqb k' k) eqn:Hk.
  - apply String.eqb_eq in Hk as ->. simpl.
    rewrite bool_decide_eq_true_2; [done | by left].
  - simpl. rewrite IH. apply String.eqb_neq in Hk.
    destruct (decide (k ∈ dict_keys d)) as [Hin | Hout].
    + rewrite !bool_decide_eq_true_2; [done | by right | done].
    + rewrite !bool_decide_eq_false_2; [done | | done].
      intros [-> | ?]%elem_of_cons; done.
Qed.

Lemma dict_keys_set_nodup {V} (k : string) (v : V) (d : dict V) :
  NoDup (dict_keys d) → NoDup (dict_keys (dict_set k v d)).
Proof.
  intros Hnodup. rewrite dict_keys_set. case_bool_decide; [done |].
  apply NoDup_app. repeat split; [done | | apply NoDup_singleton].
  intros x Hx ->%list_elem_of_singleton. done.
Qed.

Lemma dict_get_keys {V} (k : string) (d : dict V) :
  is_Some (dict_get k d) ↔ k ∈ dict_keys d.
Proof.
  induction d as [| [k' v'] d IH]; simpl.
  - split; [by intros [? ?] | by intros ?%elem_of_nil].
  - destruct (String.eqb k' k) eqn:Hk.
    + apply String.eqb_eq in Hk as ->. split; [by left | eauto].
    + apply String.eqb_neq in Hk. rewrite IH, elem_of_cons. naive_solver.
Qed.

Lemma dict_get_elem_of {V} (k : string) (v : V) (d : dict V) :
  NoDup (dict_keys d) → dict_get k d = Some v ↔ (k, v) ∈ d.
Proof.
  induction d as [| [k' v'] d IH]; simpl; intros Hnodup.
  - split; [done | by intros ?%elem_of_nil].
  - apply NoDup_cons in Hnodup as [Hfresh Hnodup].
    destruct (String.eqb k' k) eqn:Hk.
    + apply String.eqb_eq in Hk as ->. split.
      * intros [= ->]. by left.
      * intros [[= ->] | Hin]%elem_of_cons; [done |].
        destruct Hfresh. apply (list_elem_of_fmap_2 fst _ (k, v)) in Hin. done.
    + apply String.eqb_neq in Hk. rewrite (IH Hnodup), elem_of_cons.
      split; [by right | intros [[= <- <-] | ?]; done].
Qed.

Lemma ensure_key_nodup command tg :
  NoDup (dict_keys tg) → NoDup (dict_keys (ensure_key command tg)).
Proof.
  unfold ensure_key. destruct (dict_get command tg); [done |].
  apply dict_keys_set_nodup.
Qed.

Lemma store_tagsets_nodup command base tg :
  NoDup (dict_keys tg) → NoDup (dict_keys (store_tagsets command base tg)).
Proof.
  unfold store_tagsets. case_decide; [apply dict_keys_set_nodup | done].
Qed.

Lemma register_tags_step_nodup py_format auto tg tags command :
  NoDup (dict_keys tg) →
  NoDup (dict_keys (register_tags_step py_format auto (tg, tags) command).1.1).
Proof.
  intros Hnodup. rewrite register_tags_step_unfold.
  repeat case_match; simpl; auto using ensure_key_nodup, store_tagsets_nodup.
Qed.

Lemma register_tags_loop_nodup py_format auto command_names : ∀ tg tags,
  NoDup (dict_keys tg) →
  NoDup (dict_keys
           (register_tags_loop py_format auto command_names (tg, tags)).1.1).
Proof.
  induction command_names as [| command rest IH]; intros tg tags Hnodup; [done |].
  rewrite register_tags_loop_cons.
  pose proof (register_tags_step_nodup py_format auto tg tags command Hnodup)
    as Hstep.
  destruct (register_tags_step py_format auto (tg, tags) command)
    as [[tg1 tags1] [[] | e]]; simpl in *; [by apply IH | done].
Qed.

(** X9: The tagged commands stay a proper dictionary: when no command is keyed
    twice before [register_tags], none is afterwards. *)
Theorem register_tags_keeps_keys_distinct :
  ∀ (py_format : string → string → option string) (self : tracker)
    (command_names : list string) (tags : tags_arg),
    NoDup (dict_keys (commands_tagged (tr_current self))) →
    NoDup (dict_keys
             (commands_tagged
                (tr_current (register_tags py_format self command_names tags).1.1))).
Proof.
  intros py_format self command_names tags Hnodup.
  rewrite register_tags_unfold. destruct (tr_bot self); [| done].
  simpl. case_match; [done |]. simpl.
  by apply register_tags_loop_nodup.
Qed.

Lemma register_tags_keeps_keys_distinct_witness :
  NoDup (dict_keys
           (commands_tagged
              (tr_current
                 (register_tags format_field fresh_tracker ["c1"; "c2"; "c1"]
                    (TagsList [Tag "a"])).1.1))).
Proof.
  apply (register_tags_keeps_keys_distinct format_field fresh_tracker
           ["c1"; "c2"; "c1"] (TagsList [Tag "a"])).
  simpl. apply NoDup_nil_2.
Defined.

(** X10: [tracker.end()] adds one scope to the history, the current one with its
    [all] view refreshed, and hands the dispatcher each tagged command with
    the tag-sets stored for it; when the keys are distinct, each command is
    handed over once. *)
Theorem end_archives_and_flushes_each_command :
  ∀ (self : tracker),
    tr_list (tracker_end self).1 = tr_list self ++ [tr_current (current self)]
    ∧ tr_current (tracker_end self).1 = tr_current (current self)
    ∧ omap flushed_command (tracker_end self).2
      = dict_keys (commands_tagged (tr_current self))
    ∧ length (tracker_end self).2 = length (commands_tagged (tr_current self))
    ∧ (NoDup (dict_keys (commands_tagged (tr_current self))) →
       NoDup (omap flushed_command (tracker_end self).2)
       ∧ ∀ command_name command_tagsets,
           CommandRegisterTags command_name command_tagsets ∈ (tracker_end self).2
           ↔ dict_get command_name (commands_tagged (tr_current self))
             = Some command_tagsets).
Proof.
  intros self. unfold tracker_end. simpl.
  assert (omap flushed_command
            (map (λ '(command_name, command_tagsets),
                    CommandRegisterTags command_name command_tagsets)
               (commands_tagged (tr_current self)))
          = dict_keys (commands_tagged (tr_current self))) as Hkeys.
  { induction (commands_tagged (tr_current self)) as [| [k v] d IH]; [done |].
    change (k :: omap flushed_command
                   (map (λ '(command_name, command_tagsets),
                           CommandRegisterTags command_name command_tagsets) d)
            = k :: dict_keys d).
    by rewrite IH. }
  repeat split; try done.
  - by rewrite length_map.
  - by rewrite Hkeys.
  - intros Hin. apply dict_get_elem_of; [done |].
    apply list_elem_of_fmap in Hin as ([k v] & [= -> ->] & Hin). done.
  - intros Hget. apply dict_get_elem_of in Hget; [| done].
    apply list_elem_of_fmap. by exists (command_name, command_tagsets).
Qed.

Lemma end_archives_and_flushes_each_command_witness :
  NoDup
    (omap flushed_command
       (tracker_end
          (register_tags format_field fresh_tracker ["c1"; "c2"] TagsNone).1.1).2).
Proof.
  destruct (end_archives_and_flushes_each_command
              (register_tags format_field fresh_tracker ["c1"; "c2"] TagsNone).1.1)
    as (_ & _ & _ & _ & Hdistinct).
  apply Hdistinct. apply (bool_decide_unpack _). vm_compute. exact I.
Defined.

(** The loop when the list bound to [tags] does not grow (no explicit tags,
    or auto-registration off): every round for a name stores the tag-sets of
    the same [base], and a name whose stored tag-sets were among them ends
    with exactly them. *)
Lemma register_tags_loop_fixed py_format auto tags
    (base : string → list tag_item) command_names :
  (∀ tg command,
      command ∈ command_names →
      register_tags_step py_format auto (tg, tags) command
      = ((store_tagsets command (base command) (ensure_key command tg), tags),
         Returned tt)) →
  ∀ tg,
    ∃ tg',
      register_tags_loop py_format auto command_names (tg, tags)
      = ((tg', tags), Returned tt)
      ∧ ∀ command,
          stored tg command ⊆ tagsets_of (base command) →
          stored tg' command
          = if decide (command ∈ command_names)
            then tagsets_of (base command)
            else stored tg command.
Proof.
  induction command_names as [| c0 rest IH]; intros Hstep tg.
  - exists tg. split; [done |]. intros command _. by rewrite decide_False by apply not_elem_of_nil.
  - destruct (IH (λ tg command Hin, Hstep tg command (list_elem_of_further _ _ _ Hin))
                (store_tagsets c0 (base c0) (ensure_key c0 tg)))
      as (tg' & Hloop & Hstored).
    exists tg'. rewrite register_tags_loop_cons, Hstep by (by left).
    split; [done |]. intros command Hsub.
    destruct (decide (c0 = command)) as [<- | Hne].
    + rewrite (decide_True _ _ (list_elem_of_here c0 rest)).
      assert (stored (store_tagsets c0 (base c0) (ensure_key c0 tg)) c0
              = tagsets_of (base c0)) as Hexact.
      { apply store_tagsets_exact. by rewrite stored_ensure_key. }
      rewrite Hstored by (by rewrite Hexact).
      by case_decide.
    + assert (stored (store_tagsets c0 (base c0) (ensure_key c0 tg)) command
              = stored tg command) as Hsame.
      { by rewrite stored_store_tagsets_ne, stored_ensure_key. }
      rewrite Hstored by (by rewrite Hsame).
      rewrite Hsame.
      destruct (decide (command ∈ rest)) as [Hin | Hout].
      * by rewrite decide_True by (by right).
      * rewrite decide_False; [done |].
        intros [-> | ?]%elem_of_cons; done.
Qed.

Lemma tagsets_of_singleton t : tagsets_of [Tag t] = {[ {[ t ]} ]}.
Proof. unfold tagsets_of. simpl. apply union_empty_r_L. Qed.

(** X11: Without explicit tags ([None], an empty string or an empty list) and
    with auto-registration on, [register_tags] returns when the template can
    be filled for every name, leaves the caller's argument alone, and gives
    every name of the call that had no tag-set exactly one tag-set, holding
    exactly the synthesized tag. *)
Theorem register_tags_default_tag_only :
  ∀ (py_format : string → string → option string) (self : tracker)
    (command_names : list string) (tags : tags_arg) (b : Bot),
    tr_bot self = Some b →
    cfg_truthy (config_plugins_tags_autoregister b) = true →
    tags_list tags = [] →
    (∀ command, command ∈ command_names →
       is_Some (synthesize py_format (config_plugins_tags_autoregister b) command)) →
    (register_tags py_format self command_names tags).2 = Returned tt
    ∧ (register_tags py_format self command_names tags).1.2 = tags
    ∧ ∀ command t,
        command ∈ command_names →
        synthesize py_format (config_plugins_tags_autoregister b) command = Some t →
        stored (commands_tagged (tr_current self)) command = ∅ →
        stored
          (commands_tagged
             (tr_current (register_tags py_format self command_names tags).1.1))
          command
        = {[ {[ t ]} ]}.
Proof.
  intros py_format self command_names tags b Hbot Hauto Htags Hfmt.
  set (auto := config_plugins_tags_autoregister b) in *.
  set (base := λ command,
         [Tag (default "" (synthesize py_format auto command))]).
  destruct (register_tags_loop_fixed py_format auto [] base command_names)
    with (tg := commands_tagged (tr_current self)) as (tg' & Hloop & Hstored).
  { intros tg command Hin. destruct (Hfmt command Hin) as [t Ht].
    rewrite register_tags_step_unfold, Hauto, Ht. unfold base. by rewrite Ht. }
  rewrite register_tags_unfold, Hbot. simpl. fold auto.
  rewrite Htags, Hauto, Hloop. simpl.
  split; [done |]. split.
  { destruct tags as [| s | [| item items]]; simpl in *; try done. }
  intros command t Hin Ht Hempty.
  rewrite Hstored by (rewrite Hempty; apply empty_subseteq).
  rewrite decide_True by done. unfold base. rewrite Ht. simpl.
  apply tagsets_of_singleton.
Qed.

Lemma register_tags_default_tag_only_witness :
  stored
    (commands_tagged
       (tr_current (register_tags format_field fresh_tracker ["ping"] TagsNone).1.1))
    "ping"
  = {[ {[ "execute-ping" ]} ]}.
Proof.
  destruct (register_tags_default_tag_only format_field fresh_tracker ["ping"]
              TagsNone default_bot) as (_ & _ & Hstored);
    [reflexivity | reflexivity | reflexivity | |].
  - intros command _. vm_compute. eauto.
  - apply (Hstored "ping" "execute-ping");
      [by left | reflexivity | reflexivity].
Defined.

(** X12: With auto-registration off (the option set to [False] or to an empty
    string), [register_tags] always returns, never touches the caller's
    argument, synthesizes no tag, and a name of the call that had no tag-set
    gets exactly the supplied tag-sets; without tags the tracker is left as
    it was. *)
Theorem register_tags_without_auto_register :
  ∀ (py_format : string → string → option string) (self : tracker)
    (command_names : list string) (tags : tags_arg) (b : Bot),
    tr_bot self = Some b →
    cfg_truthy (config_plugins_tags_autoregister b) = false →
    (register_tags py_format self command_names tags).2 = Returned tt
    ∧ (register_tags py_format self command_names tags).1.2 = tags
    ∧ (tags_list tags = [] →
       (register_tags py_format self command_names tags).1.1 = self)
    ∧ ∀ command,
        command ∈ command_names →
        stored (commands_tagged (tr_current self)) command = ∅ →
        stored
          (commands_tagged
             (tr_current (register_tags py_format self command_names tags).1.1))
          command
        = tagsets_of (tags_list tags).
Proof.
  intros py_format self command_names tags b Hbot Hauto.
  set (auto := config_plugins_tags_autoregister b) in *.
  rewrite register_tags_unfold, Hbot. simpl. fold auto. rewrite Hauto.
  destruct (py_list_truthy (tags_list tags)) eqn:Htags; simpl.
  - destruct (register_tags_loop_fixed py_format auto (tags_list tags)
                (λ _, tags_list tags) command_names)
      with (tg := commands_tagged (tr_current self)) as (tg' & Hloop & Hstored).
    { intros tg command Hin. by rewrite register_tags_step_unfold, Hauto. }
    rewrite Hloop. simpl. split; [done |]. split.
    { by destruct tags as [| s | [| item items]]. }
    split.
    { intros Hnil. by rewrite Hnil in Htags. }
    intros command Hin Hempty.
    rewrite Hstored by (rewrite Hempty; apply empty_subseteq).
    by rewrite decide_True.
  - repeat split; try done.
    intros command Hin Hempty. rewrite Hempty.
    by destruct (tags_list tags).
Qed.

Lemma register_tags_without_auto_register_witness :
  stored
    (commands_tagged
       (tr_current
          (register_tags format_field
             (Tracker (Some (MkBot (CfgBool false) None)) [] (empty_scope None))
             ["kick"] (TagsStr "mod")).1.1))
    "kick"
  = tagsets_of (tags_list (TagsStr "mod")).
Proof.
  destruct (register_tags_without_auto_register format_field
              (Tracker (Some (MkBot (CfgBool false) None)) [] (empty_scope None))
              ["kick"] (TagsStr "mod") (MkBot (CfgBool false) None))
    as (_ & _ & _ & Hstored); [reflexivity | reflexivity |].
  apply (Hstored "kick"); [by left | reflexivity].
Defined.

Lemma list_set_nodup l : NoDup (list_set l).
Proof. unfold list_set. apply NoDup_elements. Qed.

(** X13: [register_command] records the names under their type before it turns
    to the tags: afterwards the list of that type holds the old names and the
    new ones, each once, and the list of the other type is as before, also
    when the call raises; and it does raise, with the names already
    recorded, when the tracker has no host yet. *)
Theorem register_command_records_names :
  ∀ (py_format : string → string → option string) (self : tracker)
    (type : command_type) (command_names : list string) (tags : tags_arg),
    (∀ name,
        name ∈ commands_of type
                 (tr_current
                    (register_command py_format self type command_names tags).1.1)
        ↔ name ∈ commands_of type (tr_current self) ∨ name ∈ command_names)
    ∧ NoDup
        (commands_of type
           (tr_current (register_command py_format self type command_names tags).1.1))
    ∧ commands_of (other_type type)
        (tr_current (register_command py_format self type command_names tags).1.1)
      = commands_of (other_type type) (tr_current self)
    ∧ (tr_bot self = None →
       (register_command py_format self type command_names tags).2
       = Raised AttributeError).
Proof.
  intros py_format self type command_names tags. unfold register_command.
  destruct (register_tags_shape py_format
              (set_current self
                 (extend_commands type command_names (tr_current self)))
              command_names tags) as [tg ->].
  repeat split.
  - destruct type; simpl; rewrite elem_of_list_set, elem_of_app; done.
  - destruct type; simpl; rewrite elem_of_list_set, elem_of_app; done.
  - destruct type; simpl; apply list_set_nodup.
  - by destruct type.
  - intros Hbot. rewrite register_tags_unfold. simpl. by rewrite Hbot.
Qed.

Lemma register_command_records_names_witness :
  (register_command format_field (Tracker None [] (empty_scope None)) user
     ["ping"] TagsNone).2
  = Raised AttributeError.
Proof.
  destruct (register_command_records_names format_field
              (Tracker None [] (empty_scope None)) user ["ping"] TagsNone)
    as (_ & _ & _ & Hraise).
  apply Hraise. reflexivity.
Defined.

Lemma register_tags_reads_host_and_tagged py_format self self' command_names tags :
  tr_bot self = tr_bot self' →
  commands_tagged (tr_current self) = commands_tagged (tr_current self') →
  (register_tags py_format self command_names tags).2
  = (register_tags py_format self' command_names tags).2
  ∧ (register_tags py_format self command_names tags).1.2
    = (register_tags py_format self' command_names tags).1.2
  ∧ commands_tagged
      (tr_current (register_tags py_format self command_names tags).1.1)
    = commands_tagged
        (tr_current (register_tags py_format self' command_names tags).1.1).
Proof.
  intros Hbot Htagged. rewrite !register_tags_unfold, Hbot, Htagged.
  destruct (tr_bot self'); [| done].
  simpl. by case_match.
Qed.

Lemma register_command_lists py_format self type command_names tags :
  commands_of type
    (tr_current (register_command py_format self type command_names tags).1.1)
  = list_set (commands_of type (tr_current self) ++ command_names)
  ∧ commands_of (other_type type)
      (tr_current (register_command py_format self type command_names tags).1.1)
    = commands_of (other_type type) (tr_current self)
  ∧ tr_bot (register_command py_format self type command_names tags).1.1
    = tr_bot self.
Proof.
  unfold register_command.
  destruct (register_tags_shape py_format
              (set_current self
                 (extend_commands type command_names (tr_current self)))
              command_names tags) as [tg ->].
  by destruct type.
Qed.

(** X14: Registering the same commands again changes nothing but, possibly,
    the order of the command list: on the tracker a first [register_command]
    left, in whatever order its list of that type is, a second call with the
    same type, the same names and equal tags ends as the first did, returns
    the same tags, leaves the tagged commands exactly as they were and the
    list of that type with the same names, each once; the list of the other
    type is not touched. *)
Theorem register_command_again :
  ∀ (py_format : string → string → option string) (self self2 : tracker)
    (type : command_type) (command_names : list string) (tags : tags_arg),
    tr_bot self2
    = tr_bot (register_command py_format self type command_names tags).1.1 →
    commands_tagged (tr_current self2)
    = commands_tagged
        (tr_current (register_command py_format self type command_names tags).1.1) →
    (∀ name,
        name ∈ commands_of type (tr_current self2)
        ↔ name ∈ commands_of type
                   (tr_current
                      (register_command py_format self type command_names tags).1.1)) →
    (register_command py_format self2 type command_names tags).2
    = (register_command py_format self type command_names tags).2
    ∧ (register_command py_format self2 type command_names tags).1.2
      = (register_command py_format self type command_names tags).1.2
    ∧ commands_tagged
        (tr_current (register_command py_format self2 type command_names tags).1.1)
      = commands_tagged (tr_current self2)
    ∧ (∀ name,
          name ∈ commands_of type
                   (tr_current
                      (register_command py_format self2 type command_names tags).1.1)
          ↔ name ∈ commands_of type (tr_current self2))
    ∧ NoDup
        (commands_of type
           (tr_current (register_command py_format self2 type command_names tags).1.1))
    ∧ commands_of (other_type type)
        (tr_current (register_command py_format self2 type command_names tags).1.1)
      = commands_of (other_type type) (tr_current self2).
Proof.
  intros py_format self self2 type command_names tags Hbot Htagged Hnames.
  destruct (register_command_lists py_format self type command_names tags)
    as (Hfirst & _ & _).
  destruct (register_command_lists py_format self2 type command_names tags)
    as (Hsecond & Hother & _).
  set (first := register_command py_format self type command_names tags) in *.
  destruct (register_tags_reads_host_and_tagged py_format
              (set_current self2
                 (extend_commands type command_names (tr_current self2)))
              first.1.1 command_names tags) as (Hr & Htags & Htg).
  { done. }
  { rewrite <- Htagged. by destruct type. }
  assert (register_tags py_format first.1.1 command_names tags = first) as Htwice.
  { apply register_tags_twice. }
  rewrite Htwice in Hr, Htags, Htg.
  repeat split; try done.
  - by rewrite Htagged.
  - rewrite Hsecond, elem_of_list_set, elem_of_app, Hnames.
    intros [Hin | Hin]; [done |].
    rewrite Hfirst, elem_of_list_set, elem_of_app. by right.
  - rewrite Hsecond, elem_of_list_set, elem_of_app. by left.
  - rewrite Hsecond. apply list_set_nodup.
Qed.

Lemma register_command_again_witness :
  (register_command format_field
     (register_command format_field fresh_tracker user ["ping"; "pong"]
        (TagsStr "chat")).1.1
     user ["ping"; "pong"] (TagsStr "chat")).2
  = (register_command format_field fresh_tracker user ["ping"; "pong"]
       (TagsStr "chat")).2.
Proof.
  destruct (register_command_again format_field fresh_tracker
              (register_command format_field fresh_tracker user ["ping"; "pong"]
                 (TagsStr "chat")).1.1
              user ["ping"; "pong"] (TagsStr "chat"))
    as (Hsame & _); [reflexivity | reflexivity | |].
  - intros name. reflexivity.
  - exact Hsame.
Defined.

(** X15: [tracker.current()] only refreshes the [all] view, which then holds each
    admin or user command once; asking again gives the same. *)
Theorem current_all_is_union_without_duplicates :
  ∀ (self : tracker),
    ∃ all_commands,
      commands_all (tr_current (current self)) = Some all_commands
      ∧ NoDup all_commands
      ∧ (∀ name,
           name ∈ all_commands
           ↔ name ∈ commands_admin (tr_current self)
             ∨ name ∈ commands_user (tr_current self))
      ∧ commands_admin (tr_current (current self)) = commands_admin (tr_current self)
      ∧ commands_user (tr_current (current self)) = commands_user (tr_current self)
      ∧ commands_tagged (tr_current (current self))
        = commands_tagged (tr_current self)
      ∧ current (current self) = current self.
Proof.
  intros self. eexists. split; [reflexivity |].
  split; [apply list_set_nodup |].
  split; [intros name; by rewrite elem_of_list_set, elem_of_app |].
  done.
Qed.

(** ** Plugin loader *)

(** X16: [load] keeps the failures of a plugin to itself, but for one
    place: an exception that leaves [load], or the loop over the plugins, is
    no instance of [Exception], or it is the exception [getmembers] raised,
    which the source calls outside its [try] blocks.  An [Exception] raised
    by the import, by an entry point or by the registration that ends pass 1
    never leaves [load].  (The calls of the dispatcher in pass 2 belong to
    another module and are events here: they return.) *)
Theorem load_contains_plugin_errors :
  ∀ (py_format : string → string → option string)
    (import_module : string → world → world * outcome unit)
    (getmembers : string → world → outcome (list (string * pyfunction)))
    (w : world),
    (∀ module_path module_name e,
        (load py_format import_module getmembers module_path module_name w).2
        = Raised e →
        is_Exception e = false
        ∨ ∃ w1,
            import_module module_path
              (set_tracking w
                 (start (tracking w)
                    (default (PyStr.last_component module_path) module_name,
                     module_path)))
            = (w1, Returned tt)
            ∧ getmembers module_path w1 = Raised e)
    ∧ (∀ plugin_list e,
        (load_modules py_format import_module getmembers plugin_list w).2
        = Raised e →
        is_Exception e = false
        ∨ ∃ module w1,
            module ∈ plugin_list
            ∧ getmembers ("plugins." +:+ module) w1 = Raised e).
Proof.
  intros py_format import_module getmembers w.
  assert (∀ w module_path module_name e,
            (load py_format import_module getmembers module_path module_name w).2
            = Raised e →
            is_Exception e = false
            ∨ ∃ w1,
                import_module module_path
                  (set_tracking w
                     (start (tracking w)
                        (default (PyStr.last_component module_path) module_name,
                         module_path)))
                = (w1, Returned tt)
                ∧ getmembers module_path w1 = Raised e) as Hload.
  { clear w. intros w module_path module_name e. unfold load.
    destruct (import_module _ _) as [w1 [[] | e1]].
    - destruct (getmembers module_path w1) as [public_functions | e2] eqn:Hmembers.
      + destruct (pass1 py_format public_functions w1) as [st [[] | e3]].
        * by destruct (pass2 _ _ _).
        * destruct (is_Exception e3) eqn:He3; simpl; [done |].
          intros [= <-]. by left.
      + simpl. intros [= <-]. right. by exists w1.
    - destruct (is_Exception e1) eqn:He1; simpl; [done |].
      intros [= <-]. by left. }
  split; [apply Hload |].
  intros plugin_list. revert w.
  induction plugin_list as [| module rest IH]; intros w e; simpl; [done |].
  pose proof (Hload w ("plugins." +:+ module) None e) as Hone.
  destruct (load py_format import_module getmembers ("plugins." +:+ module) None w)
    as [[w1 evs] [[] | e1]]; simpl in *.
  - pose proof (IH w1 e) as Hrest.
    destruct (load_modules py_format import_module getmembers rest w1)
      as [[w2 evs'] r]; simpl in *.
    intros Hr. destruct (Hrest Hr) as [Hexc | (module' & w' & Hin & Hraised)];
      [by left |].
    right. exists module', w'. split; [by right | done].
  - intros Hr. destruct (Hone Hr) as [Hexc | (w' & _ & Hraised)]; [by left |].
    right. exists module, w'. split; [by left | done].
Qed.

Lemma load_contains_plugin_errors_witness :
  is_Exception (ExitException "SystemExit") = false
  ∨ ∃ w1,
      example_import "plugins.exiting"
        (set_tracking fresh_world
           (start (tracking fresh_world)
              (default (PyStr.last_component "plugins.exiting") None,
               "plugins.exiting")))
      = (w1, Returned tt)
      ∧ example_getmembers "plugins.exiting" w1
        = Raised (ExitException "SystemExit").
Proof.
  destruct (load_contains_plugin_errors format_field example_import
              example_getmembers fresh_world) as [Hload _].
  apply (Hload "plugins.exiting" None). reflexivity.
Defined.

(** X17: Loading a list of plugins is loading its first part and then, from the
    world that leaves, the rest, with the events of both in order; an
    exception that leaves the first part ends the run there. *)
Theorem load_modules_in_sequence :
  ∀ (py_format : string → string → option string)
    (import_module : string → world → world * outcome unit)
    (getmembers : string → world → outcome (list (string * pyfunction)))
    (first rest : list string) (w : world),
    load_modules py_format import_module getmembers (first ++ rest) w
    = match load_modules py_format import_module getmembers first w with
      | ((w1, evs), Returned _) =>
          (((load_modules py_format import_module getmembers rest w1).1.1,
            evs ++ (load_modules py_format import_module getmembers rest w1).1.2),
           (load_modules py_format import_module getmembers rest w1).2)
      | ((w1, evs), Raised e) => ((w1, evs), Raised e)
      end.
Proof.
  intros py_format import_module getmembers first rest. induction first as [| module first IH];
    intros w; simpl.
  - by destruct (load_modules py_format import_module getmembers rest w) as [[w1 evs] r].
  - destruct (load py_format import_module getmembers ("plugins." +:+ module) None w)
      as [[w1 evs] [[] | e]]; [| done].
    rewrite IH.
    destruct (load_modules py_format import_module getmembers first w1)
      as [[w2 evs2] [[] | e2]]; simpl; [| done].
    by rewrite app_assoc.
Qed.

Lemma register_candidates_spec explicit_admin_commands all_commands candidates :
  register_candidates explicit_admin_commands all_commands candidates
  = (map (λ m : string * pyfunction,
            CommandRegister (fn_id m.2)
              (bool_decide (m.1 ∈ explicit_admin_commands)) true)
       (List.filter (λ m, bool_decide (m.1 ∈ all_commands)) candidates),
     map (λ m : string * pyfunction,
            if bool_decide (m.1 ∈ explicit_admin_commands)
            then "*" +:+ m.1 else m.1)
       (List.filter (λ m, bool_decide (m.1 ∈ all_commands)) candidates)).
Proof.
  induction candidates as [| [function_name the_function] rest IH]; simpl; [done |].
  rewrite IH. by destruct (bool_decide (function_name ∈ all_commands)).
Qed.

Lemma pass2_spec :
  ∀ (module_name : string) (candidates : list (string * pyfunction)) (w : world),
    (pass2 module_name candidates w).2
    = map (λ m : string * pyfunction,
             CommandRegister (fn_id m.2)
               (bool_decide (m.1 ∈ commands_admin (tr_current (tracking w)))) true)
        (List.filter
           (λ m, bool_decide
                   (m.1 ∈ commands_admin (tr_current (tracking w))
                    ∨ m.1 ∈ commands_user (tr_current (tracking w))))
           candidates)
      ++ [LogInfo module_name
            (map (λ m : string * pyfunction,
                    if bool_decide (m.1 ∈ commands_admin (tr_current (tracking w)))
                    then "*" +:+ m.1 else m.1)
               (List.filter
                  (λ m, bool_decide
                          (m.1 ∈ commands_admin (tr_current (tracking w))
                           ∨ m.1 ∈ commands_user (tr_current (tracking w))))
                  candidates))]
      ++ (tracker_end (tracking w)).2
    ∧ tracking (pass2 module_name candidates w).1 = (tracker_end (tracking w)).1
    ∧ bot_handlers (pass2 module_name candidates w).1 = bot_handlers w.
Proof.
  intros module_name candidates w. unfold pass2. simpl.
  rewrite register_candidates_spec. simpl.
  assert (List.filter
            (λ m : string * pyfunction,
               bool_decide
                 (m.1 ∈ list_set (commands_admin (tr_current (tracking w))
                                  ++ commands_user (tr_current (tracking w)))))
            candidates
          = List.filter
              (λ m : string * pyfunction,
                 bool_decide
                   (m.1 ∈ commands_admin (tr_current (tracking w))
                    ∨ m.1 ∈ commands_user (tr_current (tracking w))))
              candidates) as ->; [| done].
  apply filter_ext. intros m. apply bool_decide_ext.
  by rewrite elem_of_list_set, elem_of_app.
Qed.

(** X18: Pass 2 goes by the lists of the tracker: it registers with the
    dispatcher, in order and as final, exactly the candidate functions whose
    name is an admin or a user command of the scope, as admin exactly when
    the name is an admin command (also when it is a user command as well),
    then logs them and ends the scope. *)
Theorem pass2_registers_by_tracker_lists :
  ∀ (module_name : string) (candidates : list (string * pyfunction)) (w : world),
    (pass2 module_name candidates w).2
    = map (λ m : string * pyfunction,
             CommandRegister (fn_id m.2)
               (bool_decide (m.1 ∈ commands_admin (tr_current (tracking w)))) true)
        (List.filter
           (λ m, bool_decide
                   (m.1 ∈ commands_admin (tr_current (tracking w))
                    ∨ m.1 ∈ commands_user (tr_current (tracking w))))
           candidates)
      ++ [LogInfo module_name
            (map (λ m : string * pyfunction,
                    if bool_decide (m.1 ∈ commands_admin (tr_current (tracking w)))
                    then "*" +:+ m.1 else m.1)
               (List.filter
                  (λ m, bool_decide
                          (m.1 ∈ commands_admin (tr_current (tracking w))
                           ∨ m.1 ∈ commands_user (tr_current (tracking w))))
                  candidates))]
      ++ (tracker_end (tracking w)).2
    ∧ tracking (pass2 module_name candidates w).1 = (tracker_end (tracking w)).1
    ∧ bot_handlers (pass2 module_name candidates w).1 = bot_handlers w.
Proof. exact pass2_spec. Qed.

Lemma pass1_keeps py_format public_functions w :
  init_events (pass1 py_format public_functions w).1
  = init_events (init_loop public_functions (InitState w [] None [])).1
  ∧ candidate_commands (pass1 py_format public_functions w).1
    = candidate_commands (init_loop public_functions (InitState w [] None [])).1.
Proof.
  unfold pass1.
  destruct (init_loop public_functions (InitState w [] None [])) as [st [[] | e]];
    [| done].
  by destruct (register_available _ _ _ _).
Qed.

Lemma init_step_candidates st member m :
  m ∈ candidate_commands (init_step st member).1 →
  m ∈ candidate_commands st
  ∨ (m = member ∧ is_entry_point m.1 = false ∧ PyStr.startswith m.1 "_" = false).
Proof.
  unfold init_step. destruct member as [function_name the_function].
  destruct (is_entry_point function_name) eqn:Hentry.
  - destruct (call_entry_point the_function (init_world st)) as [[w1 evs] [v | e]];
      simpl; by left.
  - destruct (PyStr.startswith function_name "_") eqn:Hprivate; simpl; [by left |].
    intros [Hold | ->%list_elem_of_singleton]%elem_of_app; [by left | by right].
Qed.

Lemma init_loop_candidates public_functions : ∀ st m,
  m ∈ candidate_commands (init_loop public_functions st).1 →
  m ∈ candidate_commands st
  ∨ (m ∈ public_functions
     ∧ is_entry_point m.1 = false ∧ PyStr.startswith m.1 "_" = false).
Proof.
  induction public_functions as [| member rest IH]; intros st m; [by left |].
  rewrite init_loop_cons.
  pose proof (init_step_candidates st member m) as Hstep.
  destruct (init_step st member) as [st' [[] | e]]; simpl in *.
  - intros [Hin | (Hin & Hentry & Hprivate)]%IH.
    + destruct (Hstep Hin) as [Hold | (-> & Hentry & Hprivate)]; [by left |].
      right. split; [by left | done].
    + right. split; [by right | done].
  - intros Hin. destruct (Hstep Hin) as [Hold | (-> & Hentry & Hprivate)];
      [by left |].
    right. split; [by left | done].
Qed.

(** X19: [load] never registers a private function or an entry point as a
    command: every function it passes to [command.register] is a function of
    the module whose name does not start with "_". *)
Theorem load_registers_public_functions_only :
  ∀ (py_format : string → string → option string)
    (import_module : string → world → world * outcome unit)
    (getmembers : string → world → outcome (list (string * pyfunction)))
    (module_path : string) (module_name : option string) (w w1 : world)
    (public_functions : list (string * pyfunction)),
    import_module module_path
      (set_tracking w
         (start (tracking w)
            (default (PyStr.last_component module_path) module_name, module_path)))
    = (w1, Returned tt) →
    getmembers module_path w1 = Returned public_functions →
    ∀ ev f,
      ev ∈ (load py_format import_module getmembers module_path module_name w).1.2 →
      registered_function ev = Some f →
      ∃ function_name the_function,
        (function_name, the_function) ∈ public_functions
        ∧ fn_id the_function = f
        ∧ is_entry_point function_name = false
        ∧ PyStr.startswith function_name "_" = false.
Proof.
  intros py_format import_module getmembers module_path module_name w w1
    public_functions Himport Hmembers ev f Hev Hf.
  unfold load in Hev. rewrite Himport, Hmembers in Hev.
  destruct (pass1_keeps py_format public_functions w1) as [Hevents Hcandidates].
  pose proof (init_loop_events public_functions (InitState w1 [] None [])
                (Forall_nil_2 _)) as Hinit.
  rewrite <- Hevents in Hinit.
  assert (ev ∉ init_events (pass1 py_format public_functions w1).1) as Hnot_init.
  { intros Hin. rewrite Forall_forall in Hinit. apply Hinit in Hin.
    by destruct ev. }
  destruct (pass1 py_format public_functions w1) as [st [[] | e]] eqn:Hpass1;
    simpl in *.
  - pose proof (pass2_spec (default (PyStr.last_component module_path) module_name)
                  (candidate_commands st) (init_world st)) as (Hpass2 & _ & _).
    destruct (pass2 _ (candidate_commands st) (init_world st)) as [w2 evs] eqn:Hp2.
    simpl in *. rewrite Hpass2 in Hev.
    apply elem_of_app in Hev as [Hev | Hev]; [done |].
    apply elem_of_app in Hev as [Hev | Hev].
    + apply list_elem_of_fmap in Hev as ([function_name the_function] & -> & Hm).
      apply list_elem_of_In, filter_In in Hm as [Hm _].
      apply list_elem_of_In in Hm. rewrite Hcandidates in Hm.
      apply init_loop_candidates in Hm as [Hnil | (Hin & Hentry & Hprivate)];
        [by apply elem_of_nil in Hnil |].
      simpl in Hf. injection Hf as <-.
      by exists function_name, the_function.
    + apply elem_of_cons in Hev as [-> | Hev]; [done |].
      unfold tracker_end in Hev. simpl in Hev.
      apply list_elem_of_fmap in Hev as ([k v] & -> & _). done.
  - destruct (is_Exception e); simpl in Hev; [| done].
    apply elem_of_app in Hev as [Hev | Hev]; [done |].
    apply list_elem_of_singleton in Hev as ->. done.
Qed.

Lemma load_registers_public_functions_only_witness :
  ∃ function_name the_function,
    (function_name, the_function)
    ∈ [("_initialise", ancient_initialise);
       ("old", command_function "plugins.ancient.old")]
    ∧ fn_id the_function = "plugins.ancient.old"
    ∧ is_entry_point function_name = false
    ∧ PyStr.startswith function_name "_" = false.
Proof.
  apply (load_registers_public_functions_only format_field example_import example_getmembers
           "plugins.ancient" None fresh_world
           (set_tracking fresh_world
              (start fresh_tracker ("ancient", "plugins.ancient")))
           [("_initialise", ancient_initialise);
            ("old", command_function "plugins.ancient.old")]
           eq_refl eq_refl
           (CommandRegister "plugins.ancient.old" false true)
           "plugins.ancient.old");
    [| reflexivity].
  apply (list_elem_of_lookup_2 _ 2). reflexivity.
Defined.

Lemma init_loop_no_entry public_functions :
  Forall (λ m : string * pyfunction, is_entry_point m.1 = false) public_functions →
  ∀ st,
    init_loop public_functions st
    = (InitState (init_world st) (init_events st) (available_commands st)
         (candidate_commands st
          ++ List.filter (λ m : string * pyfunction,
                            negb (PyStr.startswith m.1 "_")) public_functions),
       Returned tt).
Proof.
  induction 1 as [| [function_name the_function] rest Hentry _ IH]; intros st.
  - simpl. rewrite app_nil_r. by destruct st.
  - rewrite init_loop_cons. unfold init_step. simpl in Hentry. rewrite Hentry.
    simpl. destruct (PyStr.startswith function_name "_"); simpl.
    + apply IH.
    + rewrite IH. simpl. by rewrite <- app_assoc.
Qed.

Lemma register_tags_none_returns py_format self command_names b :
  tr_bot self = Some b →
  (∀ command,
     is_Some (synthesize py_format (config_plugins_tags_autoregister b) command)) →
  (register_tags py_format self command_names TagsNone).2 = Returned tt.
Proof.
  intros Hbot Hfmt. rewrite register_tags_unfold, Hbot. simpl.
  destruct (cfg_truthy (config_plugins_tags_autoregister b)) eqn:Hauto; [| done].
  simpl.
  destruct (register_tags_loop_fixed py_format (config_plugins_tags_autoregister b) []
              (λ command,
                 [Tag (default ""
                         (synthesize py_format (config_plugins_tags_autoregister b)
                            command))])
              command_names)
    with (tg := commands_tagged (tr_current self)) as (tg' & -> & _); [| done].
  intros tg command _. destruct (Hfmt command) as [t Ht].
  rewrite register_tags_step_unfold, Hauto, Ht. done.
Qed.

Lemma register_user_command_unfold py_format command_names tags w :
  register_user_command py_format command_names tags w
  = ((set_tracking w
        (register_command py_format (tracking w) user (names_list command_names)
           tags).1.1,
      (register_command py_format (tracking w) user (names_list command_names)
         tags).1.2),
     (register_command py_format (tracking w) user (names_list command_names)
        tags).2).
Proof.
  unfold register_user_command.
  by destruct (register_command _ _ _ _ _) as [[t tags'] r].
Qed.

Lemma register_command_user_lists py_format self command_names tags :
  commands_user
    (tr_current (register_command py_format self user command_names tags).1.1)
  = list_set (commands_user (tr_current self) ++ command_names)
  ∧ commands_admin
      (tr_current (register_command py_format self user command_names tags).1.1)
    = commands_admin (tr_current self).
Proof.
  unfold register_command.
  by destruct (register_tags_shape py_format
                 (set_current self
                    (extend_commands user command_names (tr_current self)))
                 command_names tags) as [tg ->].
Qed.

(** X20: A plugin without entry point gets all its public functions as user
    commands: when the tracker has its host and the tag template can be
    filled, [load] calls no function of the plugin, returns normally, and
    every function whose name does not start with "_" is a user command of
    the scope and is registered with the dispatcher, as admin only if the
    import itself made it an admin command. *)
Theorem load_without_entry_point_registers_all :
  ∀ (py_format : string → string → option string)
    (import_module : string → world → world * outcome unit)
    (getmembers : string → world → outcome (list (string * pyfunction)))
    (module_path : string) (module_name : option string) (w w1 : world)
    (public_functions : list (string * pyfunction)) (b : Bot),
    import_module module_path
      (set_tracking w
         (start (tracking w)
            (default (PyStr.last_component module_path) module_name, module_path)))
    = (w1, Returned tt) →
    getmembers module_path w1 = Returned public_functions →
    Forall (λ m : string * pyfunction, is_entry_point m.1 = false) public_functions →
    tr_bot (tracking w1) = Some b →
    (∀ command,
       is_Some (synthesize py_format (config_plugins_tags_autoregister b) command)) →
    (load py_format import_module getmembers module_path module_name w).2 = Returned tt
    ∧ (∀ f args,
         Invoke f args ∉ (load py_format import_module getmembers module_path module_name w).1.2)
    ∧ ∀ function_name the_function,
        (function_name, the_function) ∈ public_functions →
        PyStr.startswith function_name "_" = false →
        function_name
        ∈ commands_user
            (tr_current
               (tracking
                  (load py_format import_module getmembers module_path module_name w).1.1))
        ∧ CommandRegister (fn_id the_function)
            (bool_decide
               (function_name ∈ commands_admin (tr_current (tracking w1))))
            true
          ∈ (load py_format import_module getmembers module_path module_name w).1.2.
Proof.
  intros py_format import_module getmembers module_path module_name w w1
    public_functions b Himport Hmembers Hno_entry Hbot Hfmt.
  set (candidates := List.filter (λ m : string * pyfunction,
                                    negb (PyStr.startswith m.1 "_"))
                       public_functions).
  set (T := (register_command py_format (tracking w1) user (map fst candidates)
               TagsNone).1.1).
  assert (pass1 py_format public_functions w1
          = (InitState (set_tracking w1 T) [] None candidates, Returned tt))
    as Hpass1.
  { unfold pass1. rewrite (init_loop_no_entry _ Hno_entry). simpl.
    unfold register_available. rewrite register_user_command_unfold. simpl.
    fold candidates. fold T. unfold register_command.
    rewrite (register_tags_none_returns _ _ _ b); [done | done | done]. }
  destruct (register_command_user_lists py_format (tracking w1)
              (map fst candidates) TagsNone) as [Huser Hadmin].
  fold T in Huser, Hadmin.
  unfold load. rewrite Himport, Hmembers, Hpass1.
  cbn [candidate_commands init_world init_events].
  pose proof (pass2_spec (default (PyStr.last_component module_path) module_name)
                candidates (set_tracking w1 T)) as (Hevents & Htracking & _).
  destruct (pass2 (default (PyStr.last_component module_path) module_name)
              candidates (set_tracking w1 T)) as [w2 evs].
  cbn [fst snd app] in *.
  rewrite Hevents, Htracking. clear Hevents Htracking.
  cbn [tracking set_tracking]. unfold tracker_end at 1. cbn [fst tr_current].
  unfold current at 1 2. cbn [tr_current set_current commands_user commands_admin].
  rewrite Hadmin, Huser.
  split; [done |]. split.
  - intros f args [Hin | Hin]%elem_of_app.
    + apply list_elem_of_fmap in Hin as (m & [=] & _).
    + apply elem_of_cons in Hin as [[=] | Hin].
      apply list_elem_of_fmap in Hin as ([k v] & [=] & _).
  - intros function_name the_function Hin Hpublic.
    assert ((function_name, the_function) ∈ candidates) as Hcandidate.
    { apply list_elem_of_In, filter_In. rewrite <- list_elem_of_In.
      split; [done |]. simpl. by rewrite Hpublic. }
    assert (function_name
            ∈ list_set (commands_user (tr_current (tracking w1))
                        ++ map fst candidates)) as Hnamed.
    { apply elem_of_list_set, elem_of_app. right.
      by apply (list_elem_of_fmap_2 fst _ (function_name, the_function)). }
    split.
    { change (function_name ∈ commands_user (tr_current T)). by rewrite Huser. }
    apply elem_of_app. left.
    apply list_elem_of_fmap. exists (function_name, the_function).
    split; [reflexivity |].
    apply list_elem_of_In, filter_In. rewrite <- list_elem_of_In.
    split; [done |]. simpl. apply bool_decide_eq_true_2. by right.
Qed.

Lemma load_without_entry_point_registers_all_witness :
  "echo"
  ∈ commands_user
      (tr_current
         (tracking
            (load format_field example_import example_getmembers "plugins.echo" None fresh_world).1.1))
  ∧ CommandRegister "plugins.echo.echo" false true
    ∈ (load format_field example_import example_getmembers "plugins.echo" None fresh_world).1.2.
Proof.
  destruct (load_without_entry_point_registers_all format_field example_import example_getmembers
              "plugins.echo" None fresh_world
              (set_tracking fresh_world (start fresh_tracker ("echo", "plugins.echo")))
              [("echo", command_function "plugins.echo.echo")] default_bot)
    as (_ & _ & Hall);
    [reflexivity | reflexivity | by repeat constructor | reflexivity | |].
  - intros command. vm_compute. eauto.
  - apply (Hall "echo" (command_function "plugins.echo.echo"));
      [by left | reflexivity].
Defined.

(** ** Module names *)

Lemma rfind_app_char c p s :
  PyStr.rfind c s = None →
  PyStr.rfind c (p +:+ String c s) = Some (String.length p).
Proof.
  intros Hs. induction p as [| a p IH]; simpl.
  - rewrite Hs. by rewrite Ascii.eqb_refl.
  - by rewrite IH.
Qed.

Lemma string_app_assoc (p q r : string) : (p +:+ q) +:+ r = p +:+ q +:+ r.
Proof.
  induction p as [| a p IH]; [done |].
  by rewrite !string_app_cons, IH.
Qed.

(** X21: The default name of a module is the last component of its path: the path
    itself when it holds no dot, and otherwise what follows its last dot. *)
Theorem last_component_of_dotted_path :
  ∀ (parent name : string),
    PyStr.rfind "."%char name = None →
    PyStr.last_component name = name
    ∧ PyStr.last_component (parent +:+ "." +:+ name) = name.
Proof.
  intros parent name Hname. unfold PyStr.last_component. split.
  - by rewrite Hname.
  - change ("." +:+ name) with (String "."%char name).
    rewrite (rfind_app_char _ _ _ Hname).
    rewrite string_length_app. simpl.
    replace (String.length parent + S (String.length name) - S (String.length parent))
      with (String.length name) by lia.
    change (String "."%char name) with ("." +:+ name).
    rewrite <- string_app_assoc.
    replace (S (String.length parent)) with (String.length (parent +:+ "."))
      by (rewrite string_length_app; simpl; lia).
    apply substring_app_r.
Qed.

Lemma last_component_of_dotted_path_witness :
  PyStr.last_component "mentions" = "mentions"
  ∧ PyStr.last_component ("plugins.mentions" +:+ "." +:+ "mentions")
    = "mentions".
Proof.
  apply (last_component_of_dotted_path "plugins.mentions" "mentions").
  reflexivity.
Defined.

(** ** File names and module names *)

Lemma rfind_none_head c a s :
  PyStr.rfind c (String a s) = None → a ≠ c ∧ PyStr.rfind c s = None.
Proof.
  simpl. destruct (PyStr.rfind c s); [done |].
  destruct (Ascii.eqb a c) eqn:Ha; [done |].
  apply Ascii.eqb_neq in Ha. done.
Qed.

Lemma startswith_char_app (a c : ascii) (s r : string) :
  PyStr.startswith (String a s +:+ r) (String c "")
  = PyStr.startswith (String a s) (String c "").
Proof.
  unfold PyStr.startswith. rewrite string_app_cons. simpl.
  destruct (Ascii.ascii_dec c a); [| done].
  by destruct s, r.
Qed.

Lemma scan_node_file must_start_with name :
  scan_node must_start_with (File name)
  = if PyStr.startswith name "_" || PyStr.startswith name "." then []
    else if fails_prefix must_start_with name then []
    else if PyStr.endswith name ".py" then [PyStr.splitext_root name]
    else [].
Proof. reflexivity. Qed.

(** X22: A plain source file is listed under its name without the extension: for
    a name without dot that does not start with "_", the file [name.py]
    alone in a directory is listed as [name]. *)
Theorem lister_lists_source_file_by_name :
  ∀ (name : string) (must_start_with : option string),
    name ≠ "" →
    PyStr.rfind "."%char name = None →
    PyStr.startswith name "_" = false →
    fails_prefix must_start_with (name +:+ ".py") = false →
    PyStr.splitext_root (name +:+ ".py") = name
    ∧ retrieve_all_plugins [File (name +:+ ".py")] must_start_with = [name].
Proof.
  intros name must_start_with Hname Hdot Hunder Hprefix.
  destruct name as [| a name]; [done |].
  apply rfind_none_head in Hdot as Hhead. destruct Hhead as [Ha Hrest].
  assert (PyStr.splitext_root (String a name +:+ ".py") = String a name) as Hroot.
  { unfold PyStr.splitext_root.
    change ".py" with (String "."%char "py").
    rewrite (rfind_app_char "."%char (String a name) "py" eq_refl).
    rewrite substring_app_l. simpl.
    destruct (Ascii.eqb a ".") eqn:Hdot'; [| done].
    by apply Ascii.eqb_eq in Hdot'. }
  split; [done |].
  rewrite retrieve_all_plugins_cons, scan_node_file, app_nil_r.
  rewrite Hroot, Hprefix.
  rewrite !startswith_char_app, Hunder.
  assert (PyStr.startswith (String a name) (String "."%char "") = false) as ->.
  { destruct (PyStr.startswith (String a name) (String "."%char "")) eqn:Hstarts;
      [| done].
    apply startswith_spec in Hstarts as [r Hr].
    rewrite string_app_cons in Hr. congruence. }
  simpl.
  assert (PyStr.endswith (String a name +:+ ".py") ".py" = true) as ->; [| done].
  apply endswith_spec. by eexists.
Qed.

Lemma lister_lists_source_file_by_name_witness :
  PyStr.splitext_root ("echo" +:+ ".py") = "echo"
  ∧ retrieve_all_plugins [File ("echo" +:+ ".py")] None = ["echo"].
Proof.
  apply (lister_lists_source_file_by_name "echo" None);
    [discriminate | reflexivity | reflexivity | reflexivity].
Defined.

(** ** Entry points *)

(** X23: What an entry point of the current style returns is ignored: when it
    is declared without parameter, or with the single parameter "bot", and
    its call returns, [available_commands] becomes the empty list whatever
    the value returned, and the candidate commands are left as they were; the
    function was called once, with no argument when it has no parameter and
    with the host when its parameter is "bot". *)
Theorem current_style_entry_point_return_is_ignored :
  ∀ (st : init_state) (function_name : string) (the_function : pyfunction),
    is_entry_point function_name = true →
    fn_params the_function = [] ∨ fn_params the_function = ["bot"] →
    (init_step st (function_name, the_function)).2 = Returned tt →
    available_commands (init_step st (function_name, the_function)).1 = Some []
    ∧ candidate_commands (init_step st (function_name, the_function)).1
      = candidate_commands st
    ∧ (fn_params the_function = [] →
       (∃ v, (fn_call the_function [] (init_world st)).2 = Returned v)
       ∧ init_world (init_step st (function_name, the_function)).1
         = (fn_call the_function [] (init_world st)).1
       ∧ init_events (init_step st (function_name, the_function)).1
         = init_events st ++ [Invoke (fn_id the_function) []])
    ∧ (fn_params the_function = ["bot"] →
       (∃ v, (fn_call the_function [ArgBot] (init_world st)).2 = Returned v)
       ∧ init_world (init_step st (function_name, the_function)).1
         = (fn_call the_function [ArgBot] (init_world st)).1
       ∧ init_events (init_step st (function_name, the_function)).1
         = init_events st ++ [Invoke (fn_id the_function) [ArgBot]]).
Proof.
  intros st function_name the_function Hentry Hparams.
  unfold init_step. rewrite Hentry. unfold call_entry_point.
  destruct Hparams as [Hparams | Hparams]; rewrite Hparams; simpl.
  - destruct (fn_call the_function [] (init_world st)) as [w1 [v | e]] eqn:Hcall;
      simpl; [| done].
    intros _. repeat split; try done. by exists v.
  - destruct (fn_call the_function [ArgBot] (init_world st)) as [w1 [v | e]]
      eqn:Hcall; simpl; [| done].
    intros _. repeat split; try done. by exists v.
Qed.

Lemma current_style_entry_point_return_is_ignored_witness :
  available_commands
    (init_step (InitState fresh_world [] None [])
       ("_initialise", modern_initialise)).1
  = Some [].
Proof.
  destruct (current_style_entry_point_return_is_ignored
              (InitState fresh_world [] None []) "_initialise" modern_initialise)
    as (Havailable & _); [reflexivity | by right | reflexivity |].
  exact Havailable.
Defined.
